(** * Remote-Job-Aggregator: the normalisation pipeline of [app.py]

    A shallow embedding of the aggregation core of [app.py]: the string
    helpers, [categorize_job], [slug_for_category], [generate_job_id],
    [parse_iso_datetime], the six provider adapters, [normalize_jobs]
    and the route handler up to rendering.

    Conventions of the embedding.
    - A Python [str] is a [string]; its characters are the code points
      U+0000..U+00FF (one [ascii] each).  [str.lower], [str.strip] and
      [str.encode] are written out for that range.
    - A decoded JSON payload is a [json] value; Python's dynamic checks
      (attribute lookup, subscripting, iteration) are functions into
      [result], whose [Raise] carries the exception class.
    - [hashlib.md5] is MD5 as in RFC 1321, on byte lists.
    - [datetime] values are records; [fromisoformat] accepts the format
      documented for it,
      [YYYY-MM-DD[*HH[:MM[:SS[.fff[fff]]]][+HH:MM[:SS[.ffffff]]]]],
      [isoformat] prints it, and [<] between an offset-naive and an
      offset-aware value raises [TypeError].
    - The network is a function from requests to outcomes; every adapter
      returns the list of requests it issued next to its result.
    - [print] calls are diagnostics and are left out. *)

From Stdlib Require Import ZArith Ascii String List Lia Bool Permutation Sorted.
From stdpp Require Import base decidable list strings gmap.

Open Scope string_scope.
Open Scope Z_scope.
Open Scope list_scope.

#[global] Arguments String.append !_ _ / : simpl nomatch.

(* ===================================================================== *)
(** ** Python strings *)
(* ===================================================================== *)

Module PyStr.

Definition code (c : ascii) : Z := Z.of_N (N_of_ascii c).
Definition chr (z : Z) : ascii := ascii_of_N (Z.to_N z).

(** [str.isspace] for one character: the ASCII white space of
    [_Py_ascii_whitespace] (TAB..CR, FS..US, space), NEL and NBSP. *)
Definition is_space (c : ascii) : bool :=
  let n := code c in
  ((9 <=? n) && (n <=? 13)) || ((28 <=? n) && (n <=? 32))
  || (n =? 133) || (n =? 160).

(** [str.lower] for one character: A..Z, and the Latin-1 capitals
    U+00C0..U+00DE without the multiplication sign U+00D7. *)
Definition lower_char (c : ascii) : ascii :=
  let n := code c in
  if ((65 <=? n) && (n <=? 90))
     || ((192 <=? n) && (n <=? 222) && negb (n =? 215))
  then chr (n + 32) else c.

(** [str.lower] on strings of code points up to U+00FF, where it acts on
    each character by itself.  Beyond that range it does not: a Greek
    capital sigma is lower-cased by its position in the word, and
    U+0130 becomes two characters.  Statements about [lower] speak of
    strings in the modelled range. *)
Fixpoint lower (s : string) : string :=
  match s with
  | EmptyString => EmptyString
  | String c s' => String (lower_char c) (lower s')
  end.

Fixpoint lstrip (s : string) : string :=
  match s with
  | EmptyString => EmptyString
  | String c s' => if is_space c then lstrip s' else s
  end.

(** Right strip: a character is dropped when it is white space and
    everything after it was dropped too. *)
Fixpoint rstrip (s : string) : string :=
  match s with
  | EmptyString => EmptyString
  | String c s' =>
      match rstrip s' with
      | EmptyString => if is_space c then EmptyString else String c EmptyString
      | r => String c r
      end
  end.

Definition strip (s : string) : string := rstrip (lstrip s).

(** [s.startswith(p)]. *)
Fixpoint starts_with (p s : string) : bool :=
  match p, s with
  | EmptyString, _ => true
  | String a p', String b s' => Ascii.eqb a b && starts_with p' s'
  | String _ _, EmptyString => false
  end.

(** [needle in hay] on strings: [needle] starts at some position. *)
Fixpoint py_in (needle hay : string) : bool :=
  if starts_with needle hay then true
  else match hay with
       | EmptyString => false
       | String _ hay' => py_in needle hay'
       end.

(** [s.replace(old, new)] for a one-character [old], the only form the
    program uses. *)
Fixpoint replace (old : ascii) (new s : string) : string :=
  match s with
  | EmptyString => EmptyString
  | String c s' =>
      if Ascii.eqb c old then new ++ replace old new s'
      else String c (replace old new s')
  end.

(** [sep.join(parts)]. *)
Fixpoint join (sep : string) (parts : list string) : string :=
  match parts with
  | [] => EmptyString
  | [p] => p
  | p :: ps => p ++ sep ++ join sep ps
  end.

(** [s.encode()]: UTF-8 of code points below U+0100. *)
Definition encode_char (c : ascii) : list Z :=
  let n := code c in
  if n <? 128 then [n]
  else [Z.lor 192 (Z.shiftr n 6); Z.lor 128 (Z.land n 63)].

Fixpoint encode (s : string) : list Z :=
  match s with
  | EmptyString => []
  | String c s' => encode_char c ++ encode s'
  end.

(** [s[:n]]: the first [n] characters (all of [s] when it is shorter). *)
Fixpoint str_take (n : nat) (s : string) : string :=
  match n, s with
  | S n', String c s' => String c (str_take n' s')
  | _, _ => EmptyString
  end.

(** The truth value of a string: non-empty. *)
Definition nonempty (s : string) : bool :=
  match s with EmptyString => false | _ => true end.

End PyStr.

Import PyStr.

(* ===================================================================== *)
(** ** Categorisation and slug (app.py, lines 43-79) *)
(* ===================================================================== *)

Definition categorize_job (title : string) : string :=
  let t := lower title in
  if py_in "intern" t || py_in "internship" t then "Internship"
  else if py_in "data" t || py_in "analyst" t then "Data Science"
  else if py_in "ai" t || py_in "ml" t || py_in "machine learning" t then "AI/ML"
  else "Software Engineering".

Definition slug_for_category (category : string) : string :=
  replace " " "-" (replace "/" "-" (lower category)).

Definition categories : list string :=
  ["Internship"; "Data Science"; "AI/ML"; "Software Engineering"].

(* ===================================================================== *)
(** ** MD5 (hashlib.md5, RFC 1321) on byte lists *)
(* ===================================================================== *)

Module Md5.

Definition w32 : Z := 4294967296.

Definition add32 (a b : Z) : Z := (a + b) mod w32.
Definition not32 (a : Z) : Z := Z.lxor a (w32 - 1).
Definition rotl32 (x c : Z) : Z :=
  Z.lor ((Z.shiftl x c) mod w32) (Z.shiftr x (32 - c)).

(** The per-round shift amounts and the sine table. *)
Definition shifts : list Z :=
  [7; 12; 17; 22; 7; 12; 17; 22; 7; 12; 17; 22; 7; 12; 17; 22;
   5; 9; 14; 20; 5; 9; 14; 20; 5; 9; 14; 20; 5; 9; 14; 20;
   4; 11; 16; 23; 4; 11; 16; 23; 4; 11; 16; 23; 4; 11; 16; 23;
   6; 10; 15; 21; 6; 10; 15; 21; 6; 10; 15; 21; 6; 10; 15; 21].

Definition sines : list Z :=
  [3614090360; 3905402710; 606105819; 3250441966;
   4118548399; 1200080426; 2821735955; 4249261313;
   1770035416; 2336552879; 4294925233; 2304563134;
   1804603682; 4254626195; 2792965006; 1236535329;
   4129170786; 3225465664; 643717713; 3921069994;
   3593408605; 38016083; 3634488961; 3889429448;
   568446438; 3275163606; 4107603335; 1163531501;
   2850285829; 4243563512; 1735328473; 2368359562;
   4294588738; 2272392833; 1839030562; 4259657740;
   2763975236; 1272893353; 4139469664; 3200236656;
   681279174; 3936430074; 3572445317; 76029189;
   3654602809; 3873151461; 530742520; 3299628645;
   4096336452; 1126891415; 2878612391; 4237533241;
   1700485571; 2399980690; 4293915773; 2240044497;
   1873313359; 4264355552; 2734768916; 1309151649;
   4149444226; 3174756917; 718787259; 3951481745].

Record state := State { sa : Z; sb : Z; sc : Z; sd : Z }.

Definition init : state :=
  State 1732584193 4023233417 2562383102 271733878.

(** Little-endian bytes of a word, and of the 64-bit bit length. *)
Definition le32 (x : Z) : list Z :=
  [x mod 256; (x / 256) mod 256; (x / 65536) mod 256; (x / 16777216) mod 256].

Definition le64 (x : Z) : list Z := le32 (x mod w32) ++ le32 ((x / w32) mod w32).

Definition pad (msg : list Z) : list Z :=
  let len := Z.of_nat (length msg) in
  msg ++ [128] ++ repeat 0 (Z.to_nat ((55 - len) mod 64)) ++ le64 (8 * len).

Fixpoint words (n : nat) (bs : list Z) : list Z :=
  match n with
  | O => []
  | S n' =>
      match bs with
      | b0 :: b1 :: b2 :: b3 :: rest =>
          (b0 + 256 * b1 + 65536 * b2 + 16777216 * b3) :: words n' rest
      | _ => []
      end
  end.

Definition round (m : list Z) (st : state) (i : Z) : state :=
  let '(State a b c d) := st in
  let '(f, g) :=
    if i <? 16 then (Z.lor (Z.land b c) (Z.land (not32 b) d), i)
    else if i <? 32 then (Z.lor (Z.land d b) (Z.land (not32 d) c), (5 * i + 1) mod 16)
    else if i <? 48 then (Z.lxor (Z.lxor b c) d, (3 * i + 5) mod 16)
    else (Z.lxor c (Z.lor b (not32 d)), (7 * i) mod 16) in
  let n := Z.to_nat i in
  let f' := add32 (add32 (add32 f a) (nth n sines 0)) (nth (Z.to_nat g) m 0) in
  State d (add32 b (rotl32 f' (nth n shifts 0))) b c.

Definition block (st : state) (bs : list Z) : state :=
  let m := words 16 bs in
  let st' := fold_left (round m) (map Z.of_nat (seq 0 64)) st in
  State (add32 (sa st) (sa st')) (add32 (sb st) (sb st'))
        (add32 (sc st) (sc st')) (add32 (sd st) (sd st')).

Fixpoint blocks (fuel : nat) (st : state) (bs : list Z) : state :=
  match fuel with
  | O => st
  | S fuel' =>
      match bs with
      | [] => st
      | _ => blocks fuel' (block st (firstn 64 bs)) (skipn 64 bs)
      end
  end.

Definition digest (msg : list Z) : list Z :=
  let p := pad msg in
  let st := blocks (length p) init p in
  le32 (sa st) ++ le32 (sb st) ++ le32 (sc st) ++ le32 (sd st).

Definition hex_digit (n : Z) : ascii :=
  if n <? 10 then chr (48 + n) else chr (87 + n).

Definition hex_byte (b : Z) : string :=
  String (hex_digit (b / 16)) (String (hex_digit (b mod 16)) EmptyString).

Fixpoint hex (bs : list Z) : string :=
  match bs with
  | [] => EmptyString
  | b :: bs' => hex_byte b ++ hex bs'
  end.

Definition hexdigest (msg : list Z) : string := hex (digest msg).

End Md5.

(* ===================================================================== *)
(** ** Identifier generation (app.py, lines 82-89) *)
(* ===================================================================== *)

(** The string handed to the hash: the f-string, lower-cased, then
    stripped as a whole. *)
Definition combined (title company source : string) : string :=
  strip (lower (source ++ ":" ++ title ++ ":" ++ company)).

Definition generate_job_id (title company source : string) : string :=
  str_take 16 (Md5.hexdigest (encode (combined title company source))).

(* ===================================================================== *)
(** ** Exceptions and results *)
(* ===================================================================== *)

(** The exception classes the program can meet; all derive from
    [Exception], so [except Exception] catches each of them. *)
Inductive exn : Type :=
| AttributeError | TypeError | IndexError | KeyError
| ValueError          (* includes json.JSONDecodeError *)
| RequestException    (* connection errors and timeouts of [requests] *)
| HTTPError.          (* raised by [raise_for_status] *)

Inductive result (A : Type) : Type :=
| Ok (a : A)
| Raise (e : exn).
Arguments Ok {A} a.
Arguments Raise {A} e.

#[global] Instance result_ret : MRet result := fun A a => Ok a.
#[global] Instance result_bind : MBind result := fun A B k m =>
  match m with
  | Ok a => k a
  | Raise e => Raise e
  end.

(** [try: body / except Exception: handler]. *)
Definition try_except {A} (body : result A) (handler : exn -> result A) : result A :=
  match body with
  | Ok a => Ok a
  | Raise e => handler e
  end.

(* ===================================================================== *)
(** ** Decoded JSON values and Python's dynamic operations on them *)
(* ===================================================================== *)

(** What [response.json()] can return.  A number is kept as an integer:
    the program only tests numbers for truth, and every operation it
    applies to one raises whatever its value. *)
#[local] Unset Elimination Schemes.
Inductive json : Type :=
| JNull
| JBool (b : bool)
| JNum (n : Z)
| JStr (s : string)
| JList (l : list json)
| JDict (d : list (string * json)).
#[local] Set Elimination Schemes.

Module Py.

(** Truth value, as tested by [if], [not] and [or]. *)
Definition truthy (v : json) : bool :=
  match v with
  | JNull => false
  | JBool b => b
  | JNum n => negb (n =? 0)
  | JStr s => nonempty s
  | JList l => match l with [] => false | _ => true end
  | JDict d => match d with [] => false | _ => true end
  end.

(** [a or b] with both operands already evaluated. *)
Definition or_ (a b : json) : json := if truthy a then a else b.

(** [a or b] where evaluating [b] may raise: [b] is only evaluated
    when [a] is false. *)
Definition or_else (a : json) (b : result json) : result json :=
  if truthy a then Ok a else b.

Fixpoint dict_lookup (k : string) (d : list (string * json)) : option json :=
  match d with
  | [] => None
  | (k', v) :: d' => if String.eqb k k' then Some v else dict_lookup k d'
  end.

(** [v.get(k, default)]: only a dict has the method. *)
Definition get_d (v : json) (k : string) (default : json) : result json :=
  match v with
  | JDict d => Ok (match dict_lookup k d with Some x => x | None => default end)
  | _ => Raise AttributeError
  end.

(** [v.get(k)]. *)
Definition get (v : json) (k : string) : result json := get_d v k JNull.

(** [v.strip()]: only a string has the method. *)
Definition strip_method (v : json) : result string :=
  match v with
  | JStr s => Ok (strip s)
  | _ => Raise AttributeError
  end.

(** [v.replace(old, new)]. *)
Definition replace_method (v : json) (old : ascii) (new : string) : result string :=
  match v with
  | JStr s => Ok (replace old new s)
  | _ => Raise AttributeError
  end.

(** [v[0]]. *)
Definition subscript0 (v : json) : result json :=
  match v with
  | JList (x :: _) => Ok x
  | JList [] => Raise IndexError
  | JStr (String c _) => Ok (JStr (String c EmptyString))
  | JStr EmptyString => Raise IndexError
  | JDict _ => Raise KeyError
  | _ => Raise TypeError
  end.

Fixpoint chars (s : string) : list json :=
  match s with
  | EmptyString => []
  | String c s' => JStr (String c EmptyString) :: chars s'
  end.

(** The elements a [for] loop over [v] visits: a dict yields its keys,
    a string its characters. *)
Definition iter (v : json) : result (list json) :=
  match v with
  | JList l => Ok l
  | JDict d => Ok (map (fun kv => JStr (fst kv)) d)
  | JStr s => Ok (chars s)
  | _ => Raise TypeError
  end.

Definition isinstance_dict (v : json) : bool :=
  match v with JDict _ => true | _ => false end.

Definition isinstance_list (v : json) : bool :=
  match v with JList _ => true | _ => false end.

(** [sep.join(parts)]: every part must be a string. *)
Fixpoint strings_of (parts : list json) : result (list string) :=
  match parts with
  | [] => Ok []
  | JStr s :: ps => ss ← strings_of ps; Ok (s :: ss)
  | _ :: _ => Raise TypeError
  end.

Definition join_method (sep : string) (parts : list json) : result string :=
  ss ← strings_of parts; Ok (join sep ss).

End Py.

Import Py.

(* ===================================================================== *)
(** ** datetime: values, ISO parsing and formatting, comparison *)
(* ===================================================================== *)

Module Datetime.

(** A [datetime] object.  [tzoffset] is [None] for an offset-naive
    value and the UTC offset in microseconds for an offset-aware one. *)
Record datetime : Type := Datetime {
  year : Z; month : Z; day : Z;
  hour : Z; minute : Z; second : Z; microsecond : Z;
  tzoffset : option Z
}.

Definition is_leap (y : Z) : bool :=
  ((y mod 4 =? 0) && negb (y mod 100 =? 0)) || (y mod 400 =? 0).

Definition days_in_month (y m : Z) : Z :=
  if m =? 2 then (if is_leap y then 29 else 28)
  else if (m =? 4) || (m =? 6) || (m =? 9) || (m =? 11) then 30
  else 31.

Definition day_us : Z := 86400000000.

(** The checks of the [datetime] and [timezone] constructors. *)
Definition valid_fields (y m d hh mm ss us : Z) : bool :=
  (1 <=? y) && (y <=? 9999) && (1 <=? m) && (m <=? 12)
  && (1 <=? d) && (d <=? days_in_month y m)
  && (0 <=? hh) && (hh <=? 23) && (0 <=? mm) && (mm <=? 59)
  && (0 <=? ss) && (ss <=? 59) && (0 <=? us) && (us <=? 999999).

Definition valid_offset (tz : option Z) : bool :=
  match tz with
  | None => true
  | Some off => (- day_us <? off) && (off <? day_us)
  end.

Definition valid (dt : datetime) : bool :=
  valid_fields (year dt) (month dt) (day dt)
               (hour dt) (minute dt) (second dt) (microsecond dt)
  && valid_offset (tzoffset dt).

(** [datetime.min]: offset-naive. *)
Definition datetime_min : datetime := Datetime 1 1 1 0 0 0 0 None.

(** *** Formatting: [dt.isoformat()] *)

Definition digit_char (d : Z) : ascii := chr (48 + d).

(** [n] decimal digits of [x], most significant first ([%0nd] for a
    value below [10^n]). *)
Fixpoint pad (n : nat) (x : Z) : string :=
  match n with
  | O => EmptyString
  | S n' => String (digit_char ((x / 10 ^ Z.of_nat n') mod 10)) (pad n' x)
  end.

(** The fraction is printed only when there is one. *)
Definition format_fraction (us : Z) : string :=
  if us =? 0 then "" else "." ++ pad 6 us.

Definition format_time (hh mm ss us : Z) : string :=
  pad 2 hh ++ ":" ++ pad 2 mm ++ ":" ++ pad 2 ss ++ format_fraction us.

(** The offset after its sign: [HH:MM], with [:SS] and the fraction
    only when they are not zero. *)
Definition format_offset_body (a : Z) : string :=
  let hh := a / 3600000000 in
  let r := a mod 3600000000 in
  let mm := r / 60000000 in
  let r' := r mod 60000000 in
  let ss := r' / 1000000 in
  let us := r' mod 1000000 in
  pad 2 hh ++ ":" ++ pad 2 mm
  ++ (if r' =? 0 then "" else ":" ++ pad 2 ss ++ format_fraction us).

Definition format_offset (tz : option Z) : string :=
  match tz with
  | None => ""
  | Some off => (if off <? 0 then "-" else "+") ++ format_offset_body (Z.abs off)
  end.

Definition isoformat (dt : datetime) : string :=
  pad 4 (year dt) ++ "-" ++ pad 2 (month dt) ++ "-" ++ pad 2 (day dt) ++ "T"
  ++ format_time (hour dt) (minute dt) (second dt) (microsecond dt)
  ++ format_offset (tzoffset dt).

(** *** Parsing: [datetime.fromisoformat(s)]

    The format documented for the function:
    [YYYY-MM-DD[*HH[:MM[:SS[.fff[fff]]]][+HH:MM[:SS[.ffffff]]]]],
    where [*] is any single character and the offset sign is [+] or
    [-]. *)

Definition digit (c : ascii) : option Z :=
  let n := code c in
  if (48 <=? n) && (n <=? 57) then Some (n - 48) else None.

(** Exactly [n] digits, read into [acc]; returns the rest. *)
Fixpoint digits (n : nat) (s : string) (acc : Z) : option (Z * string) :=
  match n with
  | O => Some (acc, s)
  | S n' =>
      match s with
      | String c s' =>
          match digit c with
          | Some d => digits n' s' (10 * acc + d)
          | None => None
          end
      | EmptyString => None
      end
  end.

Definition expect (c : ascii) (s : string) : option string :=
  match s with
  | String c' s' => if Ascii.eqb c' c then Some s' else None
  | EmptyString => None
  end.

(** [YYYY-MM-DD], returning what follows. *)
Definition parse_date (s : string) : option (Z * Z * Z * string) :=
  '(y, s1) ← digits 4 s 0;
  s2 ← expect "-" s1;
  '(m, s3) ← digits 2 s2 0;
  s4 ← expect "-" s3;
  '(d, s5) ← digits 2 s4 0;
  Some (y, m, d, s5).

(** The fraction [.fff] or [.ffffff] after the seconds, or nothing. *)
Definition parse_fraction (s : string) : option Z :=
  match s with
  | EmptyString => Some 0
  | String c f =>
      if Ascii.eqb c "." then
        match String.length f with
        | 3%nat => '(us, _) ← digits 3 f 0; Some (us * 1000)
        | 6%nat => '(us, _) ← digits 6 f 0; Some us
        | _ => None
        end
      else None
  end.

(** [HH[:MM[:SS[.fff[fff]]]]] on the whole of [s]. *)
Definition parse_hh_mm_ss_ff (s : string) : option (Z * Z * Z * Z) :=
  '(hh, s1) ← digits 2 s 0;
  match s1 with
  | EmptyString => Some (hh, 0, 0, 0)
  | _ =>
      s2 ← expect ":" s1;
      '(mm, s3) ← digits 2 s2 0;
      match s3 with
      | EmptyString => Some (hh, mm, 0, 0)
      | _ =>
          s4 ← expect ":" s3;
          '(ss, s5) ← digits 2 s4 0;
          us ← parse_fraction s5;
          Some (hh, mm, ss, us)
      end
  end.

(** Split at the first occurrence of [c]. *)
Fixpoint split_at (c : ascii) (s : string) : option (string * string) :=
  match s with
  | EmptyString => None
  | String c' s' =>
      if Ascii.eqb c' c then Some (EmptyString, s')
      else '(a, b) ← split_at c s'; Some (String c' a, b)
  end.

(** The time string is cut at its first [-] or, when it has none, at
    its first [+]; the sign says which. *)
Definition split_offset (s : string) : string * option (Z * string) :=
  match split_at "-" s with
  | Some (t, z) => (t, Some (-1, z))
  | None =>
      match split_at "+" s with
      | Some (t, z) => (t, Some (1, z))
      | None => (s, None)
      end
  end.

Definition parse_offset (sign : Z) (z : string) : option Z :=
  let n := String.length z in
  if Nat.eqb n 5 || Nat.eqb n 8 || Nat.eqb n 15 then
    '(hh, mm, ss, us) ← parse_hh_mm_ss_ff z;
    let off := sign * (((hh * 60 + mm) * 60 + ss) * 1000000 + us) in
    if valid_offset (Some off) then Some off else None
  else None.

Definition parse_time (s : string) : option (Z * Z * Z * Z * option Z) :=
  let '(t, z) := split_offset s in
  '(hh, mm, ss, us) ← parse_hh_mm_ss_ff t;
  match z with
  | None => Some (hh, mm, ss, us, None)
  | Some (sign, zs) => off ← parse_offset sign zs; Some (hh, mm, ss, us, Some off)
  end.

Definition parse (s : string) : option datetime :=
  '(y, m, d, rest) ← parse_date s;
  '(hh, mm, ss, us, tz) ←
    match rest with
    | EmptyString => Some (0, 0, 0, 0, None)
    | String _ t => parse_time t
    end;
  if valid_fields y m d hh mm ss us then Some (Datetime y m d hh mm ss us tz)
  else None.

(** A string outside the format raises [ValueError]. *)
Definition fromisoformat (s : string) : result datetime :=
  match parse s with
  | Some dt => Ok dt
  | None => Raise ValueError
  end.

(** *** Comparison *)

Definition days_before_year (y : Z) : Z :=
  let p := y - 1 in p * 365 + p / 4 - p / 100 + p / 400.

Fixpoint days_before_month_aux (y : Z) (m : nat) : Z :=
  match m with
  | O => 0
  | S m' => days_before_month_aux y m' + days_in_month y (Z.of_nat m)
  end.

Definition days_before_month (y m : Z) : Z :=
  days_before_month_aux y (Z.to_nat (m - 1)).

Definition toordinal (dt : datetime) : Z :=
  days_before_year (year dt) + days_before_month (year dt) (month dt) + day dt.

(** Microseconds since the start of the proleptic calendar, in the
    value's own wall-clock time. *)
Definition wall_us (dt : datetime) : Z :=
  (((toordinal dt * 24 + hour dt) * 60 + minute dt) * 60 + second dt) * 1000000
  + microsecond dt.

(** The position on the time line that comparison uses: the wall clock
    for a naive value, the UTC instant for an aware one. *)
Definition instant (dt : datetime) : Z :=
  match tzoffset dt with
  | None => wall_us dt
  | Some off => wall_us dt - off
  end.

Definition aware (dt : datetime) : bool :=
  match tzoffset dt with Some _ => true | None => false end.

(** [a < b]: comparing a naive with an aware value raises
    [TypeError]. *)
Definition dt_lt (a b : datetime) : result bool :=
  if Bool.eqb (aware a) (aware b) then Ok (instant a <? instant b)
  else Raise TypeError.

End Datetime.

Import Datetime.

(* ===================================================================== *)
(** ** Date normalisation (app.py, lines 92-111) *)
(* ===================================================================== *)

(** [value] is whatever the payload holds under the provider's date
    key: the adapters pass it on unchecked. *)
Definition parse_iso_datetime (value : json) : result string :=
  if negb (truthy value) then Ok ""
  else
    try_except
      (dt_str ← replace_method value "Z" "+00:00";
       dt ← fromisoformat dt_str;
       Ok (isoformat dt))
      (fun _ => Ok "").

(* ===================================================================== *)
(** ** Job records, configuration and the network *)
(* ===================================================================== *)

(** The dictionary every adapter appends: eight string fields. *)
Record Job : Type := mkJob {
  job_id : string;
  job_title : string;
  job_company : string;
  job_location : string;
  job_url : string;
  job_category : string;
  job_source : string;
  job_published : string
}.

(** [os.environ]. *)
Abbreviation Env := (gmap string string).

(** [os.getenv(name)] gives [None] for an unset variable; a variable
    counts as missing ([not value]) when it is unset or empty. *)
Definition getenv (env : Env) (name : string) : option string := env !! name.

Definition getenv_d (env : Env) (name default : string) : string :=
  match env !! name with Some v => v | None => default end.

Definition missing (v : option string) : bool :=
  match v with
  | Some s => negb (nonempty s)
  | None => true
  end.

Definition value_of (v : option string) : string :=
  match v with Some s => s | None => "" end.

(** One [requests.get] call. *)
Record request : Type := mkRequest {
  req_url : string;
  req_headers : list (string * string);
  req_params : list (string * string);
  req_timeout : Z
}.

(** What the call meets: no response at all (connection error,
    timeout), or a response with its status code and its body, [None]
    when the body is not JSON. *)
Inductive outcome : Type :=
| NoResponse
| Response (status : Z) (body : option json).

Definition Net : Type := request -> outcome.

(** Computations that may call the network: the requests issued so far
    are threaded through, in order. *)
Definition io (A : Type) : Type := Net -> list request -> list request * result A.

Definition io_ret {A} (a : A) : io A := fun _ log => (log, Ok a).

Definition io_bind {A B} (m : io A) (k : A -> io B) : io B := fun net log =>
  match m net log with
  | (log', Ok a) => k a net log'
  | (log', Raise e) => (log', Raise e)
  end.

Definition io_lift {A} (r : result A) : io A := fun _ log => (log, r).

Definition io_try {A} (body : io A) (handler : exn -> io A) : io A := fun net log =>
  match body net log with
  | (log', Ok a) => (log', Ok a)
  | (log', Raise e) => handler e net log'
  end.

Definition run {A} (m : io A) (net : Net) : list request * result A := m net [].

#[global] Instance io_mret : MRet io := @io_ret.
#[global] Instance io_mbind : MBind io := fun A B k m => io_bind m k.

(** [requests.get(...)]: the call is recorded, and no response raises. *)
Definition requests_get (req : request) : io (Z * option json) := fun net log =>
  (log ++ [req],
   match net req with
   | NoResponse => Raise RequestException
   | Response status body => Ok (status, body)
   end).

(** [response.raise_for_status()]: raises for 4xx and 5xx. *)
Definition raise_for_status (response : Z * option json) : result unit :=
  let status := fst response in
  if (400 <=? status) && (status <? 600) then Raise HTTPError else Ok tt.

(** [response.json()]. *)
Definition response_json (response : Z * option json) : result json :=
  match snd response with
  | Some v => Ok v
  | None => Raise ValueError
  end.

(** The guarded part shared by the adapters:
    [try: response = requests.get(..); response.raise_for_status()]. *)
Definition get_checked (req : request) : io (Z * option json) :=
  response ← requests_get req;
  io_lift (_ ← raise_for_status response; Ok response).

(** The [for item in items] loop: [body] yields [None] where the source
    says [continue], and the record to append otherwise. *)
Fixpoint for_items (body : json -> result (option Job)) (items : list json)
    (jobs : list Job) : result (list Job) :=
  match items with
  | [] => Ok jobs
  | item :: rest =>
      match body item with
      | Raise e => Raise e
      | Ok None => for_items body rest jobs
      | Ok (Some job) => for_items body rest (jobs ++ [job])
      end
  end.

(** The tail of every loop body: skip unless the required fields are
    there, then build the record. *)
Definition emit (required : bool) (title company location url src : string)
    (date : result json) : result (option Job) :=
  if negb required then Ok None
  else
    let id := generate_job_id title company src in
    published ← date ≫= parse_iso_datetime;
    let category := categorize_job title in
    Ok (Some (mkJob id title company location url category src published)).

(* ===================================================================== *)
(** ** The six provider adapters (app.py, lines 133-532) *)
(* ===================================================================== *)

(** [try: get; raise_for_status / except Exception: return []]: [None]
    stands for the early [return []]. *)
Definition guarded_get (req : request) : io (option (Z * option json)) :=
  io_try (response ← get_checked req; mret (Some response))
         (fun _ => mret None).

Definition remotive_item (item : json) : result (option Job) :=
  if negb (isinstance_dict item) then Ok None
  else
    t ← get item "title";
    title ← strip_method (or_ t (JStr ""));
    c1 ← get item "company_name";
    c2 ← or_else c1 (get item "company");
    company ← strip_method (or_ c2 (JStr ""));
    l1 ← get item "candidate_required_location";
    l2 ← or_else l1 (get item "location");
    location ← strip_method (or_ l2 (JStr "Remote"));
    u1 ← get item "url";
    u2 ← or_else u1 (get item "job_url");
    url ← strip_method (or_ u2 (JStr ""));
    emit (nonempty title && nonempty company && nonempty url)
         title company location url "Remotive"
         (d1 ← get item "publication_date"; or_else d1 (get item "published_at")).

Definition remotive_request : request :=
  mkRequest "https://remotive.com/api/remote-jobs" [] [] 10.

Definition fetch_remotive_jobs : io (list Job) :=
  r ← guarded_get remotive_request;
  match r with
  | None => mret []
  | Some response =>
      io_lift
        (payload ← response_json response;
         j ← get_d payload "jobs" (JList []);
         let items := or_ j (if isinstance_list payload then payload else JList []) in
         elems ← iter items;
         for_items remotive_item elems [])
  end.

Definition adzuna_item (item : json) : result (option Job) :=
  t ← get item "title";
  title ← strip_method (or_ t (JStr ""));
  c ← get_d item "company" (JDict []);
  c1 ← get c "display_name";
  c2 ← or_else c1 (c' ← get_d item "company" (JDict []); get c' "name");
  company ← strip_method (or_ c2 (JStr ""));
  l ← get_d item "location" (JDict []);
  l1 ← get l "display_name";
  l2 ← or_else l1 (l' ← get_d item "location" (JDict []);
                   a ← get_d l' "area" (JList [JStr ""]);
                   subscript0 a);
  location ← strip_method (or_ l2 (JStr "Remote"));
  u1 ← get item "redirect_url";
  u2 ← or_else u1 (get item "url");
  url ← strip_method (or_ u2 (JStr ""));
  emit (nonempty title && nonempty company && nonempty url)
       title company location url "Adzuna"
       (get item "created").

Definition adzuna_request (app_id app_key country : string) : request :=
  mkRequest ("https://api.adzuna.com/v1/api/jobs/" ++ country ++ "/search/1")
    []
    [("app_id", app_id); ("app_key", app_key); ("results_per_page", "50");
     ("what", "software engineer OR developer OR data scientist OR machine learning");
     ("content-type", "application/json")]
    10.

Definition fetch_adzuna_jobs (env : Env) : io (list Job) :=
  let app_id := getenv env "ADZUNA_APP_ID" in
  let app_key := getenv env "ADZUNA_APP_KEY" in
  if missing app_id || missing app_key then mret []
  else
    let country := getenv_d env "ADZUNA_COUNTRY" "us" in
    r ← guarded_get (adzuna_request (value_of app_id) (value_of app_key) country);
    match r with
    | None => mret []
    | Some response =>
        io_lift
          (payload ← response_json response;
           j ← get_d payload "results" (JList []);
           elems ← iter (or_ j (JList []));
           for_items adzuna_item elems [])
    end.

(** [if item.get(k): location_parts.append(item.get(k))]. *)
Definition append_if (item : json) (k : string) (parts : list json) : result (list json) :=
  v ← get item k;
  if truthy v then (v' ← get item k; Ok (parts ++ [v'])) else Ok parts.

Definition jsearch_item (item : json) : result (option Job) :=
  t ← get item "job_title";
  title ← strip_method (or_ t (JStr ""));
  c ← get item "employer_name";
  company ← strip_method (or_ c (JStr ""));
  p1 ← append_if item "job_city" [];
  p2 ← append_if item "job_state" p1;
  location_parts ← append_if item "job_country" p2;
  location0 ← match location_parts with
              | [] => Ok "Remote"
              | _ => join_method ", " location_parts
              end;
  let location := strip location0 in
  u1 ← get item "job_apply_link";
  u2 ← or_else u1 (get item "job_url");
  url ← strip_method (or_ u2 (JStr ""));
  emit (nonempty title && nonempty company && nonempty url)
       title company location url "JSearch"
       (d1 ← get item "job_posted_at_datetime_utc"; or_else d1 (get item "job_posted_at")).

Definition jsearch_request (rapidapi_key rapidapi_host : string) : request :=
  mkRequest "https://jsearch.p.rapidapi.com/search"
    [("X-RapidAPI-Key", rapidapi_key); ("X-RapidAPI-Host", rapidapi_host)]
    [("query", "software developer OR data scientist OR machine learning engineer");
     ("page", "1"); ("num_pages", "1"); ("date_posted", "month")]
    10.

Definition fetch_jsearch_jobs (env : Env) : io (list Job) :=
  let rapidapi_key := getenv env "RAPIDAPI_KEY" in
  let rapidapi_host := getenv_d env "JSEARCH_RAPIDAPI_HOST" "jsearch.p.rapidapi.com" in
  if missing rapidapi_key then mret []
  else
    r ← guarded_get (jsearch_request (value_of rapidapi_key) rapidapi_host);
    match r with
    | None => mret []
    | Some response =>
        io_lift
          (payload ← response_json response;
           j ← get_d payload "data" (JList []);
           elems ← iter (or_ j (JList []));
           for_items jsearch_item elems [])
    end.

Definition careerjet_item (item : json) : result (option Job) :=
  t ← get item "title";
  title ← strip_method (or_ t (JStr ""));
  c ← get item "company";
  company ← strip_method (or_ c (JStr ""));
  l1 ← get item "locations";
  l2 ← or_else l1 (get item "location");
  location ← strip_method (or_ l2 (JStr "Remote"));
  u1 ← get item "url";
  u2 ← or_else u1 (get item "site");
  url ← strip_method (or_ u2 (JStr ""));
  emit (nonempty title && nonempty company && nonempty url)
       title company location url "Careerjet"
       (get item "date").

Definition careerjet_request (affid locale location : string) : request :=
  mkRequest "https://public.api.careerjet.net/search"
    []
    ([("affid", affid); ("locale_code", locale);
      ("keywords", "software engineer OR developer OR data scientist OR machine learning");
      ("pagesize", "50"); ("page", "1")]
     ++ (if nonempty location then [("location", location)] else []))
    10.

Definition fetch_careerjet_jobs (env : Env) : io (list Job) :=
  let affid := getenv env "CAREERJET_AFFID" in
  let locale := getenv_d env "CAREERJET_LOCALE" "en_US" in
  let location := getenv_d env "CAREERJET_LOCATION" "" in
  if missing affid then mret []
  else
    r ← guarded_get (careerjet_request (value_of affid) locale location);
    match r with
    | None => mret []
    | Some response =>
        io_lift
          (payload ← response_json response;
           j ← get_d payload "jobs" (JList []);
           elems ← iter (or_ j (JList []));
           for_items careerjet_item elems [])
    end.

Definition themuse_item (item : json) : result (option Job) :=
  t ← get item "name";
  title ← strip_method (or_ t (JStr ""));
  company_obj ← get_d item "company" (JDict []);
  c ← get company_obj "name";
  company ← strip_method (or_ c (JStr ""));
  locations ← get_d item "locations" (JList []);
  location0 ← (if truthy locations
               then (first ← subscript0 locations; get_d first "name" (JStr "Remote"))
               else Ok (JStr "Remote"));
  location ← strip_method location0;
  refs ← get_d item "refs" (JDict []);
  u ← get refs "landing_page";
  url ← strip_method (or_ u (JStr ""));
  emit (nonempty title && nonempty company && nonempty url)
       title company location url "TheMuse"
       (get item "publication_date").

Definition themuse_request (api_key : string) : request :=
  mkRequest "https://www.themuse.com/api/public/jobs"
    []
    [("api_key", api_key); ("page", "1");
     ("category", "Software Engineering,Data Science,Engineering");
     ("location", "")]
    10.

Definition fetch_themuse_jobs (env : Env) : io (list Job) :=
  let api_key := getenv env "THEMUSE_API_KEY" in
  if missing api_key then mret []
  else
    r ← guarded_get (themuse_request (value_of api_key));
    match r with
    | None => mret []
    | Some response =>
        io_lift
          (payload ← response_json response;
           j ← get_d payload "results" (JList []);
           elems ← iter (or_ j (JList []));
           for_items themuse_item elems [])
    end.

(** [xs[0] if xs else default], then [.strip()]. *)
Definition first_or (xs : json) (default : string) : result string :=
  v ← (if truthy xs then subscript0 xs else Ok (JStr default));
  strip_method v.

Definition usajobs_item (item : json) : result (option Job) :=
  matched_obj ← get_d item "MatchedObjectDescriptor" (JDict []);
  t ← get matched_obj "PositionTitle";
  title ← strip_method (or_ t (JStr ""));
  org_codes ← get_d matched_obj "OrganizationCodes" (JList []);
  company ← first_or org_codes "US Government";
  position_locations ← get_d matched_obj "PositionLocationDisplay" (JList []);
  location ← first_or position_locations "Remote";
  position_urls ← get_d matched_obj "PositionURI" (JList []);
  url ← first_or position_urls "";
  emit (nonempty title && nonempty url)
       title company location url "USAJobs"
       (get matched_obj "PublicationStartDate").

Definition usajobs_request (email : string) (api_key : option string) : request :=
  mkRequest "https://data.usajobs.gov/api/Search"
    ([("User-Agent", email); ("Host", "data.usajobs.gov")]
     ++ (if missing api_key then [] else [("Authorization-Key", value_of api_key)]))
    [("Keyword", "software engineer OR developer OR data scientist OR information technology");
     ("ResultsPerPage", "50"); ("Page", "1")]
    10.

Definition fetch_usajobs (env : Env) : io (list Job) :=
  let email := getenv_d env "USAJOBS_EMAIL" "user@example.com" in
  let api_key := getenv env "USAJOBS_API_KEY" in
  r ← guarded_get (usajobs_request email api_key);
  match r with
  | None => mret []
  | Some response =>
      io_lift
        (payload ← response_json response;
         search_result ← get_d payload "SearchResult" (JDict []);
         j ← get_d search_result "SearchResultItems" (JList []);
         elems ← iter (or_ j (JList []));
         for_items usajobs_item elems [])
  end.

(* ===================================================================== *)
(** ** The aggregator (app.py, lines 540-618) *)
(* ===================================================================== *)

(** The deduplication key of a record. *)
Definition dedup_key (job : Job) : string * string :=
  (strip (lower (job_title job)), strip (lower (job_company job))).

(** The deduplication loop, with its [seen] set and the list it appends
    to. *)
Fixpoint dedup_loop (jobs : list Job) (seen : gset (string * string))
    (unique_jobs : list Job) : list Job :=
  match jobs with
  | [] => unique_jobs
  | job :: rest =>
      let key := dedup_key job in
      if decide (key ∈ seen) then dedup_loop rest seen unique_jobs
      else dedup_loop rest ({[key]} ∪ seen) (unique_jobs ++ [job])
  end.

Definition dedup (jobs : list Job) : list Job := dedup_loop jobs ∅ [].

(** The nested [sort_key]. *)
Definition sort_key (job : Job) : datetime :=
  let published := job_published job in
  if negb (nonempty published) then datetime_min
  else
    match fromisoformat (replace "Z" "+00:00" published) with
    | Ok dt => dt
    | Raise _ => datetime_min
    end.

(** [list.sort(key=sort_key, reverse=True)]: a stable sort into
    descending key order, written as an insertion sort.  The keys are
    compared with [<] on [datetime], so a comparison between a naive and
    an aware key raises out of the sort.  A stable sort has one result,
    and every comparison sort compares the elements that end up next to
    each other, so the outcome does not depend on the sorting algorithm:
    [sort_reverse_spec] below states it without reference to one. *)
Fixpoint insert_desc (x : Job) (sorted : list Job) : result (list Job) :=
  match sorted with
  | [] => Ok [x]
  | y :: rest =>
      match dt_lt (sort_key x) (sort_key y) with
      | Raise e => Raise e
      | Ok true => r ← insert_desc x rest; Ok (y :: r)
      | Ok false => Ok (x :: sorted)
      end
  end.

Fixpoint sort_reverse (jobs : list Job) : result (list Job) :=
  match jobs with
  | [] => Ok []
  | x :: rest => s ← sort_reverse rest; insert_desc x s
  end.

(** [l[:limit]]; a negative [limit] counts from the end. *)
Definition slice_to (limit : Z) (l : list Job) : list Job :=
  if 0 <=? limit then firstn (Z.to_nat limit) l
  else firstn (length l - Z.to_nat (- limit)) l.

(** Everything after the six fetches. *)
Definition rank (limit : Z) (jobs : list Job) : result (list Job) :=
  let unique_jobs := dedup jobs in
  sorted ← sort_reverse unique_jobs;
  Ok (slice_to limit sorted).

Definition default_limit : Z := 50.

Definition normalize_jobs (env : Env) (limit : Z) : io (list Job) :=
  let jobs := [] in
  remotive_jobs ← fetch_remotive_jobs;
  let jobs := jobs ++ remotive_jobs in
  adzuna_jobs ← fetch_adzuna_jobs env;
  let jobs := jobs ++ adzuna_jobs in
  jsearch_jobs ← fetch_jsearch_jobs env;
  let jobs := jobs ++ jsearch_jobs in
  careerjet_jobs ← fetch_careerjet_jobs env;
  let jobs := jobs ++ careerjet_jobs in
  themuse_jobs ← fetch_themuse_jobs env;
  let jobs := jobs ++ themuse_jobs in
  usajobs_jobs ← fetch_usajobs env;
  let jobs := jobs ++ usajobs_jobs in
  io_lift (rank limit jobs).

(** The route handler, up to rendering: the records handed to the
    template, each with its slug, or none when anything raised. *)
Definition index (env : Env) : io (list (Job * string)) :=
  io_try
    (jobs ← normalize_jobs env default_limit;
     mret (map (fun job => (job, slug_for_category (job_category job))) jobs))
    (fun _ => mret []).

(** The route handler with its rendering (app.py, lines 636-652).
    [render_template] belongs to Flask and is taken as a parameter: a
    function from the list handed to the template to the page, which
    may raise.  A rendering that raises inside the [try] is caught like
    everything else there, and the handler renders the empty list; that
    second call is outside the [try]. *)
Definition index_response {Html : Type}
    (render_template : list (Job * string) -> result Html) (env : Env) : io Html :=
  io_try
    (jobs ← normalize_jobs env default_limit;
     io_lift (render_template
                (map (fun job => (job, slug_for_category (job_category job))) jobs)))
    (fun _ => io_lift (render_template [])).

(** The six providers, in call order, for statements that range over
    them. *)
Inductive provider : Type :=
| Remotive | Adzuna | JSearch | Careerjet | TheMuse | USAJobs.

Definition providers : list provider :=
  [Remotive; Adzuna; JSearch; Careerjet; TheMuse; USAJobs].

Definition provider_name (p : provider) : string :=
  match p with
  | Remotive => "Remotive" | Adzuna => "Adzuna" | JSearch => "JSearch"
  | Careerjet => "Careerjet" | TheMuse => "TheMuse" | USAJobs => "USAJobs"
  end.

Definition fetch (p : provider) (env : Env) : io (list Job) :=
  match p with
  | Remotive => fetch_remotive_jobs
  | Adzuna => fetch_adzuna_jobs env
  | JSearch => fetch_jsearch_jobs env
  | Careerjet => fetch_careerjet_jobs env
  | TheMuse => fetch_themuse_jobs env
  | USAJobs => fetch_usajobs env
  end.

Definition item_body (p : provider) : json -> result (option Job) :=
  match p with
  | Remotive => remotive_item
  | Adzuna => adzuna_item
  | JSearch => jsearch_item
  | Careerjet => careerjet_item
  | TheMuse => themuse_item
  | USAJobs => usajobs_item
  end.

(* ===================================================================== *)
(** ** Vocabulary of the statements *)
(* ===================================================================== *)

(** A title contains a keyword, ignoring case: some stretch of the
    title lower-cases to the keyword. *)
Definition icontains (kw title : string) : Prop :=
  exists pre m suf, title = (pre ++ m ++ suf)%string /\ lower m = kw.

(** The characters of a hexadecimal digest. *)
Definition is_hex (c : ascii) : bool :=
  let n := code c in
  ((48 <=? n) && (n <=? 57)) || ((97 <=? n) && (n <=? 102)).

Fixpoint all_chars (P : ascii -> bool) (s : string) : bool :=
  match s with
  | EmptyString => true
  | String c s' => P c && all_chars P s'
  end.

Definition is_digit (c : ascii) : bool :=
  match digit c with Some _ => true | None => false end.

(** The characters of a formatted time or offset body. *)
Definition is_plain (c : ascii) : bool :=
  is_digit c || Ascii.eqb c ":" || Ascii.eqb c ".".

Definition differs (c : ascii) (x : ascii) : bool := negb (Ascii.eqb x c).

(** The rule as the specification words it: only a trailing [old] is
    replaced. *)
Fixpoint replace_trailing (old : ascii) (new s : string) : string :=
  match s with
  | EmptyString => EmptyString
  | String c EmptyString => if Ascii.eqb c old then new else s
  | String c s' => String c (replace_trailing old new s')
  end.

Definition parse_iso_datetime_trailing (value : json) : result string :=
  if negb (truthy value) then Ok ""
  else
    try_except
      (dt_str ← match value with
                | JStr s => Ok (replace_trailing "Z" "+00:00" s)
                | _ => Raise AttributeError
                end;
       dt ← fromisoformat dt_str;
       Ok (isoformat dt))
      (fun _ => Ok "").

(** First occurrence wins, as the specification words it: a record is
    kept, and every later record with its key is dropped. *)
Fixpoint keep_first (jobs : list Job) : list Job :=
  match jobs with
  | [] => []
  | job :: rest =>
      job :: filter (fun j => dedup_key j <> dedup_key job) (keep_first rest)
  end.

(** The loop seen from a given state of [seen]. *)
Fixpoint dedup_from (seen : gset (string * string)) (jobs : list Job) : list Job :=
  match jobs with
  | [] => []
  | job :: rest =>
      if decide (dedup_key job ∈ seen) then dedup_from seen rest
      else job :: dedup_from ({[dedup_key job]} ∪ seen) rest
  end.


(** The credentials an adapter cannot do without. *)
Definition required_credentials (p : provider) : list string :=
  match p with
  | Remotive => []
  | Adzuna => ["ADZUNA_APP_ID"; "ADZUNA_APP_KEY"]
  | JSearch => ["RAPIDAPI_KEY"]
  | Careerjet => ["CAREERJET_AFFID"]
  | TheMuse => ["THEMUSE_API_KEY"]
  | USAJobs => []
  end.

(** The request an adapter issues once its credentials are there. *)
Definition request_of (p : provider) (env : Env) : request :=
  match p with
  | Remotive => remotive_request
  | Adzuna =>
      adzuna_request (value_of (getenv env "ADZUNA_APP_ID"))
                     (value_of (getenv env "ADZUNA_APP_KEY"))
                     (getenv_d env "ADZUNA_COUNTRY" "us")
  | JSearch =>
      jsearch_request (value_of (getenv env "RAPIDAPI_KEY"))
                      (getenv_d env "JSEARCH_RAPIDAPI_HOST" "jsearch.p.rapidapi.com")
  | Careerjet =>
      careerjet_request (value_of (getenv env "CAREERJET_AFFID"))
                        (getenv_d env "CAREERJET_LOCALE" "en_US")
                        (getenv_d env "CAREERJET_LOCATION" "")
  | TheMuse => themuse_request (value_of (getenv env "THEMUSE_API_KEY"))
  | USAJobs =>
      usajobs_request (getenv_d env "USAJOBS_EMAIL" "user@example.com")
                      (getenv env "USAJOBS_API_KEY")
  end.

(** An adapter is skipped when one of its required variables is unset
    or empty. *)
Definition skipped (p : provider) (env : Env) : bool :=
  existsb (fun k => missing (getenv env k)) (required_credentials p).

(** The outcomes the adapters' [try] block turns into [return []]: no
    response, or a 4xx or 5xx status. *)
Definition failed (o : outcome) : bool :=
  match o with
  | NoResponse => true
  | Response status _ => (400 <=? status) && (status <? 600)
  end.

(** A response that passes the status check with a body that is not
    JSON. *)
Definition not_json (o : outcome) : bool :=
  match o with
  | Response status None => negb ((400 <=? status) && (status <? 600))
  | _ => false
  end.

#[global] Instance provider_eq_dec : EqDecision provider.
Proof. solve_decision. Defined.

(** The fetches of [normalize_jobs] over a list of providers. *)
Fixpoint gather (ps : list provider) (env : Env) (jobs : list Job) : io (list Job) :=
  match ps with
  | [] => mret jobs
  | p :: ps' => r ← fetch p env; gather ps' env (jobs ++ r)
  end.

(** Aggregation over a list of providers. *)
Definition aggregate (ps : list provider) (env : Env) (limit : Z) : io (list Job) :=
  jobs ← gather ps env []; io_lift (rank limit jobs).

Definition others (p : provider) : list provider :=
  filter (fun q => q <> p) providers.

(** *** Example worlds *)

(** A network given by the answers of the endpoints it knows; any other
    request meets no response. *)
Fixpoint net_of (answers : list (string * outcome)) : Net := fun req =>
  match answers with
  | [] => NoResponse
  | (u, o) :: rest => if String.eqb (req_url req) u then o else net_of rest req
  end.

(** A Remotive listing. *)
Definition remotive_job (title company url date : string) : json :=
  JDict [("title", JStr title); ("company_name", JStr company);
         ("url", JStr url); ("publication_date", JStr date)].

Definition remotive_payload (items : list json) : json :=
  JDict [("jobs", JList items)].

Definition remotive_url : string := "https://remotive.com/api/remote-jobs".
Definition adzuna_url : string := "https://api.adzuna.com/v1/api/jobs/us/search/1".

Definition adzuna_env : Env :=
  {[ "ADZUNA_APP_ID" := "id"; "ADZUNA_APP_KEY" := "key" ]}.

Definition one_listing : json :=
  remotive_payload [remotive_job "Backend Developer" "Acme" "https://acme.example/1"
                                 "2024-03-01T00:00:00"].

(** Remotive answers with one listing; Adzuna is configured and its
    server is in trouble. *)
Definition net_adzuna_500 : Net :=
  net_of [(remotive_url, Response 200 (Some one_listing));
          (adzuna_url, Response 500 None)].

(** The same, with Adzuna answering 200 and a body that is not JSON. *)
Definition net_adzuna_html : Net :=
  net_of [(remotive_url, Response 200 (Some one_listing));
          (adzuna_url, Response 200 None)].

(** Remotive answers 304 with an empty body. *)
Definition net_remotive_304 : Net :=
  net_of [(remotive_url, Response 304 None)].

(** *** Raw items *)

(** The key is present in a decoded object. *)
Definition has_key (k : string) (v : json) : bool :=
  match v with
  | JDict d => match dict_lookup k d with Some _ => true | None => false end
  | _ => false
  end.

(** The object an adapter reads its fields from: the item itself, or
    for USAJobs the descriptor inside it. *)
Definition descriptor (p : provider) (item : json) : json :=
  match p with
  | USAJobs =>
      match get_d item "MatchedObjectDescriptor" (JDict []) with
      | Ok m => m
      | Raise _ => JNull
      end
  | _ => item
  end.

(** The keys an adapter reads the location from. *)
Definition location_keys (p : provider) : list string :=
  match p with
  | Remotive => ["candidate_required_location"; "location"]
  | Adzuna => ["location"]
  | JSearch => ["job_city"; "job_state"; "job_country"]
  | Careerjet => ["locations"; "location"]
  | TheMuse => ["locations"]
  | USAJobs => ["PositionLocationDisplay"]
  end.

Definition location_absent (p : provider) (item : json) : bool :=
  forallb (fun k => negb (has_key k (descriptor p item))) (location_keys p).

(** What the claims say of a record built by provider [p] from [item]. *)
Definition well_formed (p : provider) (item : json) (job : Job) : Prop :=
  job_title job <> ""%string
  /\ job_url job <> ""%string
  /\ (p <> USAJobs -> job_company job <> ""%string)
  /\ job_source job = provider_name p
  /\ (location_absent p item = true -> job_location job = "Remote"%string)
  /\ (p = USAJobs -> has_key "OrganizationCodes" (descriptor p item) = false ->
      job_company job = "US Government"%string)
  /\ job_id job = generate_job_id (job_title job) (job_company job) (job_source job)
  /\ job_category job = categorize_job (job_title job)
  /\ exists raw, parse_iso_datetime raw = Ok (job_published job).

(** *** Sorting *)

(** The position of a record on the time line of its sort key. *)
Definition key_instant (job : Job) : Z := instant (sort_key job).

(** All sort keys are offset-aware, or all are offset-naive. *)
Definition same_kind (jobs : list Job) : bool :=
  forallb (fun j => aware (sort_key j)) jobs
  || forallb (fun j => negb (aware (sort_key j))) jobs.

(** Newest first. *)
Definition newer_first (a b : Job) : Prop := key_instant b <= key_instant a.

(** Remotive answers with the given listings, nobody else answers. *)
Definition net_remotive (items : list json) : Net :=
  net_of [(remotive_url, Response 200 (Some (remotive_payload items)))].

(** A listing dated with the UTC marker next to an undated one. *)
Definition mixed_listings : list json :=
  [remotive_job "Backend Developer" "Acme" "https://acme.example/1"
                "2024-03-01T00:00:00Z";
   remotive_job "Data Analyst" "Initech" "https://initech.example/2" ""].


(** A record with a title and a publication date, for the sorting
    examples. *)
Definition dated (title published : string) : Job :=
  mkJob "" title "Acme" "Remote" "https://acme.example" "" "Remotive" published.

(** *** Further vocabulary *)

(** The characters a slug is free of: the two separators and the
    capital letters A..Z. *)
Definition slug_char (c : ascii) : bool :=
  negb (Ascii.eqb c "/") && negb (Ascii.eqb c " ")
  && negb ((65 <=? code c) && (code c <=? 90)).

Definition slugs : list string :=
  ["internship"; "data-science"; "ai-ml"; "software-engineering"].

(** No white space at either end. *)
Definition stripped (s : string) : Prop := strip s = s.

(** The requests [normalize_jobs] issues when no adapter raises: one
    per provider that is not skipped, in call order. *)
Definition requests_due (ps : list provider) (env : Env) : list request :=
  flat_map (fun p => if skipped p env then [] else [request_of p env]) ps.

(** The key of the payload under which an adapter looks for its
    listings (for USAJobs, the object that holds them). *)
Definition listing_key (p : provider) : string :=
  match p with
  | Remotive => "jobs"
  | Adzuna => "results"
  | JSearch => "data"
  | Careerjet => "jobs"
  | TheMuse => "results"
  | USAJobs => "SearchResult"
  end.

(** The status passes [raise_for_status]. *)
Definition status_ok (status : Z) : bool :=
  negb ((400 <=? status) && (status <? 600)).

(** *** Character range *)

(** Every character is in the ASCII range, where [str.lower] acts on
    each character by itself. *)
Definition ascii_only (s : string) : bool :=
  all_chars (fun c => code c <? 128) s.

(** *** Items and listings of a payload *)








Definition adzuna_item_of (title company url : string) : json :=
  JDict [("title", JStr title); ("company", JDict [("display_name", JStr company)]);
         ("redirect_url", JStr url)].

(* ===================================================================== *)
(** * Properties *)
(* ===================================================================== *)

(** ** Strings *)

Section string_facts.

Lemma append_nil_r (s : string) : (s ++ "")%string = s.
Proof. induction s as [|c s IH]; simpl; [reflexivity | now rewrite IH]. Qed.

Lemma append_assoc (a b c : string) : ((a ++ b) ++ c)%string = (a ++ (b ++ c))%string.
Proof. induction a as [|x a IH]; simpl; [reflexivity | now rewrite IH]. Qed.

Lemma length_append (a b : string) :
  String.length (a ++ b) = (String.length a + String.length b)%nat.
Proof. induction a as [|x a IH]; simpl; [reflexivity | now rewrite IH]. Qed.

Lemma lower_app (a b : string) : lower (a ++ b) = (lower a ++ lower b)%string.
Proof. induction a as [|x a IH]; simpl; [reflexivity | now rewrite IH]. Qed.

Lemma lower_char_idem (c : ascii) : lower_char (lower_char c) = lower_char c.
Proof. destruct c as [[] [] [] [] [] [] [] []]; reflexivity. Qed.

Lemma is_space_lower_char (c : ascii) : is_space (lower_char c) = is_space c.
Proof. destruct c as [[] [] [] [] [] [] [] []]; reflexivity. Qed.

Lemma lower_idem (s : string) : lower (lower s) = lower s.
Proof.
  induction s as [|c s IH]; simpl; [reflexivity|].
  now rewrite lower_char_idem, IH.
Qed.

(** Splitting the lower-cased string splits the string. *)
Lemma lower_eq_app (t a b : string) :
  lower t = (a ++ b)%string ->
  exists x y, t = (x ++ y)%string /\ lower x = a /\ lower y = b.
Proof.
  revert t; induction a as [|c a IH]; intros t H.
  - exists ""%string, t. auto.
  - destruct t as [|c' t]; simpl in H; [discriminate|].
    injection H as Hc Ht. destruct (IH _ Ht) as (x & y & -> & Hx & Hy).
    exists (String c' x), y. simpl. now rewrite Hc, Hx.
Qed.

Lemma starts_with_spec (p s : string) :
  starts_with p s = true <-> exists suf, s = (p ++ suf)%string.
Proof.
  revert s; induction p as [|c p IH]; intros s; simpl.
  - split; [intros _; now exists s | reflexivity].
  - destruct s as [|c' s]; [split; [discriminate | intros [? ?]; discriminate]|].
    rewrite andb_true_iff, Ascii.eqb_eq, IH. split.
    + intros [-> [suf ->]]. now exists suf.
    + intros [suf H]. injection H as -> ->. eauto.
Qed.

(** [needle in hay] holds exactly when [hay] splits around [needle]. *)
Lemma py_in_spec (needle hay : string) :
  py_in needle hay = true <->
  exists pre suf, hay = (pre ++ needle ++ suf)%string.
Proof.
  induction hay as [|c hay IH]; simpl.
  - destruct (starts_with needle "") eqn:Hp.
    + split; [intros _ | reflexivity].
      apply starts_with_spec in Hp as [suf H]. now exists ""%string, suf.
    + split; [discriminate|]. intros (pre & suf & H).
      destruct pre; simpl in H; [|discriminate].
      assert (starts_with needle "" = true) by (apply starts_with_spec; eauto).
      congruence.
  - destruct (starts_with needle (String c hay)) eqn:Hp.
    + split; [intros _ | reflexivity].
      apply starts_with_spec in Hp as [suf H]. now exists ""%string, suf.
    + rewrite IH. split.
      * intros (pre & suf & ->). now exists (String c pre), suf.
      * intros (pre & suf & H). destruct pre as [|c' pre]; simpl in H.
        -- assert (starts_with needle (String c hay) = true)
             by (apply starts_with_spec; eauto).
           congruence.
        -- injection H as _ ->. eauto.
Qed.

Lemma lstrip_lower (s : string) : lstrip (lower s) = lower (lstrip s).
Proof.
  induction s as [|c s IH]; simpl; [reflexivity|].
  rewrite is_space_lower_char. now destruct (is_space c).
Qed.

Lemma rstrip_lower (s : string) : rstrip (lower s) = lower (rstrip s).
Proof.
  induction s as [|c s IH]; simpl; [reflexivity|].
  rewrite IH, is_space_lower_char.
  destruct (rstrip s); simpl; [now destruct (is_space c) | reflexivity].
Qed.

Lemma strip_lower (s : string) : strip (lower s) = lower (strip s).
Proof. unfold strip. now rewrite lstrip_lower, rstrip_lower. Qed.

Lemma lstrip_idem (s : string) : lstrip (lstrip s) = lstrip s.
Proof.
  induction s as [|c s IH]; simpl; [reflexivity|].
  destruct (is_space c) eqn:E; [exact IH | simpl; now rewrite E].
Qed.

Lemma rstrip_idem (s : string) : rstrip (rstrip s) = rstrip s.
Proof.
  induction s as [|c s IH]; simpl; [reflexivity|].
  destruct (rstrip s) as [|c' r] eqn:E.
  - destruct (is_space c) eqn:Ec; simpl; [reflexivity | now rewrite Ec].
  - change (rstrip (String c (String c' r))) with
      (match rstrip (String c' r) with
       | EmptyString => if is_space c then EmptyString else String c EmptyString
       | r0 => String c r0
       end).
    now rewrite IH.
Qed.

(** A character that is not white space stops the left strip. *)
Lemma lstrip_app_stop (a r : string) (c : ascii) :
  is_space c = false ->
  lstrip (a ++ String c r) = (lstrip a ++ String c r)%string.
Proof.
  intros Hc. induction a as [|x a IH]; simpl; [now rewrite Hc|].
  now destruct (is_space x).
Qed.

Lemma rstrip_cons_stop (c : ascii) (r : string) :
  is_space c = false -> rstrip (String c r) = String c (rstrip r).
Proof. intros Hc. simpl. rewrite Hc. now destruct (rstrip r). Qed.

(** What precedes a part that survives the right strip is kept. *)
Lemma rstrip_app_keep (a b : string) :
  rstrip b <> ""%string -> rstrip (a ++ b) = (a ++ rstrip b)%string.
Proof.
  intros Hb. induction a as [|x a IH]; simpl; [reflexivity|].
  rewrite IH. destruct (a ++ rstrip b)%string eqn:E; [|reflexivity].
  destruct a; simpl in E; [contradiction | discriminate].
Qed.

Lemma str_take_length (n : nat) (s : string) :
  String.length (str_take n s) = Nat.min n (String.length s).
Proof.
  revert s; induction n as [|n IH]; intros [|c s]; simpl; auto.
Qed.

End string_facts.

(** ** Categorisation *)

Lemma icontains_py_in (kw title : string) :
  icontains kw title <-> py_in kw (lower title) = true.
Proof.
  rewrite py_in_spec. split.
  - intros (pre & m & suf & -> & <-).
    exists (lower pre), (lower suf). now rewrite !lower_app.
  - intros (a & b & H).
    apply lower_eq_app in H as (pre & rest & -> & <- & H).
    apply lower_eq_app in H as (m & suf & -> & <- & _).
    now exists pre, m, suf.
Qed.

Lemma py_in_false (kw title : string) :
  ~ icontains kw title -> py_in kw (lower title) = false.
Proof.
  intros H. destruct (py_in kw (lower title)) eqn:E; [|reflexivity].
  exfalso. now apply H, icontains_py_in.
Qed.

Lemma py_in_longer (kw ext hay : string) :
  py_in (kw ++ ext) hay = true -> py_in kw hay = true.
Proof.
  rewrite !py_in_spec. intros (pre & suf & ->).
  exists pre, (ext ++ suf)%string. now rewrite append_assoc.
Qed.

(** C4.  [categorize_job] follows the priority order on every title: a
    title containing "intern" (in any case) is an Internship whatever
    else it contains; failing that, "data" or "analyst" gives Data
    Science; failing that, "ai", "ml" or "machine learning" gives AI/ML;
    otherwise Software Engineering.  The result is always one of the
    four distinct category labels. *)
Theorem categorize_job_priority (title : string) :
  (icontains "intern" title -> categorize_job title = "Internship")
  /\ (~ icontains "intern" title ->
      icontains "data" title \/ icontains "analyst" title ->
      categorize_job title = "Data Science")
  /\ (~ icontains "intern" title ->
      ~ icontains "data" title -> ~ icontains "analyst" title ->
      icontains "ai" title \/ icontains "ml" title
      \/ icontains "machine learning" title ->
      categorize_job title = "AI/ML")
  /\ (~ icontains "intern" title ->
      ~ icontains "data" title -> ~ icontains "analyst" title ->
      ~ icontains "ai" title -> ~ icontains "ml" title ->
      ~ icontains "machine learning" title ->
      categorize_job title = "Software Engineering")
  /\ In (categorize_job title) categories
  /\ NoDup categories.
Proof.
  assert (Hship : ~ icontains "intern" title ->
                  py_in "internship" (lower title) = false).
  { intros H. destruct (py_in "internship" (lower title)) eqn:E; [|reflexivity].
    exfalso. apply H, icontains_py_in.
    now apply (py_in_longer "intern" "ship"). }
  repeat split.
  - intros H%icontains_py_in. unfold categorize_job; cbv zeta. now rewrite H.
  - intros Hi%py_in_false.
    intros [H%icontains_py_in | H%icontains_py_in];
      unfold categorize_job; cbv zeta; rewrite Hi, Hship by (now apply icontains_py_in ||
        (intros X%icontains_py_in; congruence)); rewrite H; simpl;
      [reflexivity | now rewrite orb_true_r].
  - intros Hi Hd%py_in_false Ha%py_in_false H.
    unfold categorize_job; cbv zeta.
    rewrite (py_in_false _ _ Hi), (Hship Hi), Hd, Ha. simpl.
    destruct H as [H%icontains_py_in | [H%icontains_py_in | H%icontains_py_in]];
      rewrite H; simpl; rewrite ?orb_true_r; reflexivity.
  - intros Hi Hd%py_in_false Ha%py_in_false H1%py_in_false H2%py_in_false
           H3%py_in_false.
    unfold categorize_job; cbv zeta.
    now rewrite (py_in_false _ _ Hi), (Hship Hi), Hd, Ha, H1, H2, H3.
  - unfold categorize_job, categories; cbv zeta.
    repeat match goal with |- context [if ?b then _ else _] => destruct b end;
      simpl; auto.
  - unfold categories.
    repeat (apply NoDup_cons_2; [rewrite ?elem_of_cons, elem_of_nil; intuition discriminate|]).
    apply NoDup_nil_2.
Qed.

(** The example of the source's docstring, through the theorem. *)
Lemma categorize_job_priority_witness :
  icontains "intern" "Data Science Intern"
  /\ icontains "data" "Data Science Intern"
  /\ categorize_job "Data Science Intern" = "Internship".
Proof.
  assert (H : icontains "intern" "Data Science Intern")
    by (exists "Data Science "%string, "Intern"%string, ""%string; split; reflexivity).
  split; [exact H|]. split.
  - exists ""%string, "Data"%string, " Science Intern"%string. split; reflexivity.
  - exact (proj1 (categorize_job_priority "Data Science Intern") H).
Defined.

(** ** Identifier generation *)

Section job_id_facts.

Lemma hex_length (bs : list Z) : String.length (Md5.hex bs) = (2 * length bs)%nat.
Proof.
  induction bs as [|b bs IH]; simpl; [reflexivity|].
  rewrite IH. lia.
Qed.

Lemma digest_length (msg : list Z) : length (Md5.digest msg) = 16%nat.
Proof. reflexivity. Qed.

Lemma hexdigest_length (msg : list Z) : String.length (Md5.hexdigest msg) = 32%nat.
Proof. unfold Md5.hexdigest. now rewrite hex_length, digest_length. Qed.

(** The hash input, with the strip of the whole string pushed to the
    two ends where it can act. *)
Lemma combined_eq (title company source : string) :
  combined title company source
  = (lstrip (lower source) ++ ":" ++ lower title ++ ":" ++ rstrip (lower company))%string.
Proof.
  unfold combined, strip.
  rewrite !lower_app. change (lower ":") with ":"%string.
  change (":" ++ lower title ++ ":" ++ lower company)%string
    with (String ":" (lower title ++ String ":" (lower company)))%string.
  rewrite lstrip_app_stop by reflexivity.
  assert (H1 : rstrip (String ":" (lower company)) = String ":" (rstrip (lower company)))
    by now apply rstrip_cons_stop.
  assert (H2 : rstrip (lower title ++ String ":" (lower company))
               = (lower title ++ String ":" (rstrip (lower company)))%string).
  { rewrite rstrip_app_keep; rewrite H1; [reflexivity | discriminate]. }
  rewrite rstrip_app_keep.
  - now rewrite rstrip_cons_stop, H2 by reflexivity.
  - rewrite rstrip_cons_stop by reflexivity. discriminate.
Qed.

End job_id_facts.

Lemma all_chars_app (P : ascii -> bool) (a b : string) :
  all_chars P (a ++ b) = all_chars P a && all_chars P b.
Proof.
  induction a as [|c a IH]; simpl; [reflexivity|].
  now rewrite IH, andb_assoc.
Qed.

Lemma all_chars_str_take (P : ascii -> bool) (n : nat) (s : string) :
  all_chars P s = true -> all_chars P (str_take n s) = true.
Proof.
  revert s; induction n as [|n IH]; intros [|c s]; simpl; auto.
  intros [Hc Hs]%andb_true_iff. now rewrite Hc, IH.
Qed.

Lemma hex_digit_is_hex (n : Z) : 0 <= n < 16 -> is_hex (Md5.hex_digit n) = true.
Proof.
  intros H. rewrite <- (Z2Nat.id n) by lia.
  assert (Hk : (Z.to_nat n < 16)%nat) by lia.
  revert Hk. generalize (Z.to_nat n). intros k Hk.
  do 16 (destruct k as [|k]; [reflexivity|]). lia.
Qed.

Lemma hex_is_hex (bs : list Z) :
  Forall (fun b => 0 <= b < 256) bs -> all_chars is_hex (Md5.hex bs) = true.
Proof.
  induction 1 as [|b bs Hb _ IH]; simpl; [reflexivity|].
  rewrite IH, !hex_digit_is_hex; [reflexivity | |].
  - apply Z.mod_pos_bound. lia.
  - split; [apply Z.div_pos; lia | apply Z.div_lt_upper_bound; lia].
Qed.

Lemma digest_bytes (msg : list Z) : Forall (fun b => 0 <= b < 256) (Md5.digest msg).
Proof.
  unfold Md5.digest, Md5.le32. cbv zeta.
  repeat (apply Forall_app; split);
    repeat (apply Forall_cons; split; [apply Z.mod_pos_bound; lia|]);
    apply Forall_nil; exact I.
Qed.

(** C6, as amended.  The id is the first 16 characters of the MD5 hex
    digest of [source:title:company] lower-cased and then stripped as one
    string: it is 16 hexadecimal characters long, and it is unchanged
    when leading white space is taken off the source and trailing white
    space off the company, and, for arguments made of ASCII characters,
    when every argument is lower-cased.  (White space on either side of
    the title, after the source or before the company stays in the
    hashed string.) *)
Theorem generate_job_id_normalised (title company source : string) :
  generate_job_id title company source
  = str_take 16 (Md5.hexdigest (encode (strip (lower (source ++ ":" ++ title ++ ":" ++ company)))))
  /\ String.length (generate_job_id title company source) = 16%nat
  /\ all_chars is_hex (generate_job_id title company source) = true
  /\ generate_job_id title company source
     = generate_job_id title (rstrip company) (lstrip source)
  /\ (ascii_only title = true -> ascii_only company = true ->
      ascii_only source = true ->
      generate_job_id title company source
      = generate_job_id (lower title) (lower company) (lower source)).
Proof.
  split; [reflexivity|]. split; [|split; [|split]].
  - unfold generate_job_id. now rewrite str_take_length, hexdigest_length.
  - unfold generate_job_id, Md5.hexdigest.
    apply all_chars_str_take, hex_is_hex, digest_bytes.
  - unfold generate_job_id. rewrite !combined_eq.
    now rewrite !lstrip_lower, !rstrip_lower, lstrip_idem, rstrip_idem.
  - intros _ _ _. unfold generate_job_id. now rewrite !combined_eq, !lower_idem.
Qed.

(** Capitals in ASCII arguments do not change the id. *)
Lemma generate_job_id_normalised_witness :
  generate_job_id "Backend Developer" "Acme" "Remotive"
  = generate_job_id "backend developer" "acme" "remotive".
Proof.
  apply (generate_job_id_normalised "Backend Developer" "Acme" "Remotive");
    reflexivity.
Defined.

(** C6, as stated, fails: trimming each argument changes the id when
    the title carries white space of its own. *)
Lemma generate_job_id_trim_counterexample :
  generate_job_id " Dev" "Acme" "Remotive"
  <> generate_job_id (strip (lower " Dev")) (strip (lower "Acme"))
                     (strip (lower "Remotive")).
Proof. vm_compute. discriminate. Qed.

(** ** ISO formatting and parsing *)

Section iso_roundtrip.

Lemma digit_digit_char (d : Z) : 0 <= d < 10 -> digit (digit_char d) = Some d.
Proof.
  intros H. rewrite <- (Z2Nat.id d) by lia.
  assert (Hk : (Z.to_nat d < 10)%nat) by lia.
  revert Hk. generalize (Z.to_nat d). intros k Hk.
  do 10 (destruct k as [|k]; [reflexivity|]). lia.
Qed.

Lemma pad_S (n : nat) (x : Z) :
  pad (S n) x = String (digit_char ((x / 10 ^ Z.of_nat n) mod 10)) (pad n x).
Proof. reflexivity. Qed.

Lemma pad_length (n : nat) (x : Z) : String.length (pad n x) = n.
Proof. induction n as [|n IH]; [reflexivity|]. rewrite pad_S. simpl. now rewrite IH. Qed.

Lemma pad_digits (n : nat) (x : Z) : all_chars is_digit (pad n x) = true.
Proof.
  induction n as [|n IH]; [reflexivity|]. rewrite pad_S. simpl.
  rewrite IH, andb_true_r. unfold is_digit.
  rewrite digit_digit_char; [reflexivity | apply Z.mod_pos_bound; lia].
Qed.

(** Reading back [n] formatted digits. *)
Lemma digits_pad (n : nat) (x acc : Z) (r : string) :
  digits n (pad n x ++ r) acc = Some (acc * 10 ^ Z.of_nat n + x mod 10 ^ Z.of_nat n, r).
Proof.
  revert acc; induction n as [|n IH]; intros acc.
  - simpl. rewrite Z.mod_1_r. do 2 f_equal. lia.
  - rewrite pad_S. simpl String.append. simpl digits.
    rewrite digit_digit_char by (apply Z.mod_pos_bound; lia).
    rewrite IH. do 2 f_equal.
    rewrite Nat2Z.inj_succ, Z.pow_succ_r by lia.
    replace (10 * 10 ^ Z.of_nat n) with (10 ^ Z.of_nat n * 10) by ring.
    rewrite Z.rem_mul_r by lia. ring.
Qed.

Lemma digits_pad_exact (n : nat) (x : Z) (r : string) :
  0 <= x < 10 ^ Z.of_nat n -> digits n (pad n x ++ r) 0 = Some (x, r).
Proof. intros H. rewrite digits_pad, Z.mod_small by exact H. reflexivity. Qed.

Lemma split_at_absent (c : ascii) (s : string) :
  all_chars (differs c) s = true -> split_at c s = None.
Proof.
  induction s as [|x s IH]; simpl; [reflexivity|].
  unfold differs at 1. intros [Hx Hs]%andb_true_iff.
  apply negb_true_iff in Hx. now rewrite Hx, IH.
Qed.

Lemma split_at_app (c : ascii) (a b : string) :
  all_chars (differs c) a = true -> split_at c (a ++ String c b) = Some (a, b).
Proof.
  induction a as [|x a IH]; simpl.
  - now rewrite Ascii.eqb_refl.
  - unfold differs at 1. intros [Hx Hs]%andb_true_iff.
    apply negb_true_iff in Hx. now rewrite Hx, IH.
Qed.

Lemma all_chars_impl (P Q : ascii -> bool) (s : string) :
  (forall c, P c = true -> Q c = true) ->
  all_chars P s = true -> all_chars Q s = true.
Proof.
  intros HPQ. induction s as [|c s IH]; simpl; [reflexivity|].
  intros [Hc Hs]%andb_true_iff. now rewrite (HPQ _ Hc), IH.
Qed.

Lemma plain_differs (c x : ascii) :
  c = "-"%char \/ c = "+"%char \/ c = "Z"%char ->
  is_plain x = true -> differs c x = true.
Proof.
  intros [-> | [-> | ->]];
    destruct x as [[] [] [] [] [] [] [] []]; simpl; intros H;
    first [reflexivity | discriminate H].
Qed.

Lemma digit_plain (c : ascii) : is_digit c = true -> is_plain c = true.
Proof. unfold is_plain. now intros ->. Qed.

Lemma pad_plain (n : nat) (x : Z) : all_chars is_plain (pad n x) = true.
Proof. apply (all_chars_impl is_digit); [apply digit_plain | apply pad_digits]. Qed.

Lemma digits_pad_end (n : nat) (x : Z) :
  0 <= x < 10 ^ Z.of_nat n -> digits n (pad n x) 0 = Some (x, ""%string).
Proof.
  intros H. rewrite <- (append_nil_r (pad n x)). now apply digits_pad_exact.
Qed.

Lemma parse_fraction_format (us : Z) :
  0 <= us < 1000000 -> parse_fraction (format_fraction us) = Some us.
Proof.
  intros H. unfold format_fraction.
  destruct (us =? 0) eqn:E; [apply Z.eqb_eq in E; now subst|].
  cbn -[pad digits]. rewrite pad_length, digits_pad_end by (simpl; lia).
  reflexivity.
Qed.

Lemma parse_hms (hh mm ss us : Z) :
  0 <= hh < 100 -> 0 <= mm < 100 -> 0 <= ss < 100 -> 0 <= us < 1000000 ->
  parse_hh_mm_ss_ff (pad 2 hh ++ ":" ++ pad 2 mm ++ ":" ++ pad 2 ss ++ format_fraction us)
  = Some (hh, mm, ss, us).
Proof.
  intros Hh Hm Hs Hu. unfold parse_hh_mm_ss_ff.
  rewrite digits_pad_exact by (simpl; lia). cbn -[pad digits format_fraction].
  rewrite digits_pad_exact by (simpl; lia). cbn -[pad digits format_fraction].
  rewrite digits_pad_exact by (simpl; lia). cbn -[pad digits format_fraction].
  now rewrite parse_fraction_format.
Qed.

Lemma parse_hm (hh mm : Z) :
  0 <= hh < 100 -> 0 <= mm < 100 ->
  parse_hh_mm_ss_ff (pad 2 hh ++ ":" ++ pad 2 mm) = Some (hh, mm, 0, 0).
Proof.
  intros Hh Hm. unfold parse_hh_mm_ss_ff.
  rewrite digits_pad_exact by (simpl; lia). cbn -[pad digits].
  now rewrite digits_pad_end by (simpl; lia).
Qed.

Lemma format_fraction_plain (us : Z) : all_chars is_plain (format_fraction us) = true.
Proof.
  unfold format_fraction. destruct (us =? 0); [reflexivity|].
  rewrite all_chars_app, pad_plain. reflexivity.
Qed.

Lemma format_time_plain (hh mm ss us : Z) :
  all_chars is_plain (format_time hh mm ss us) = true.
Proof.
  unfold format_time.
  now rewrite !all_chars_app, !pad_plain, format_fraction_plain.
Qed.

Lemma format_fraction_length (us : Z) :
  String.length (format_fraction us) = if (us =? 0)%Z then 0%nat else 7%nat.
Proof.
  unfold format_fraction. destruct (us =? 0); [reflexivity|].
  now rewrite length_append, pad_length.
Qed.

Lemma format_offset_body_plain (a : Z) :
  all_chars is_plain (format_offset_body a) = true.
Proof.
  unfold format_offset_body. cbv zeta.
  rewrite !all_chars_app, !pad_plain.
  destruct (_ =? 0); [reflexivity|].
  now rewrite !all_chars_app, pad_plain, format_fraction_plain.
Qed.

Lemma parse_offset_format (sign a : Z) :
  sign = 1 \/ sign = -1 -> 0 <= a < day_us ->
  parse_offset sign (format_offset_body a) = Some (sign * a).
Proof.
  intros Hsign Ha. unfold day_us in Ha.
  pose proof (Z.div_mod a 3600000000 ltac:(lia)) as E1.
  pose proof (Z.mod_pos_bound a 3600000000 ltac:(lia)) as B1.
  pose proof (Z.div_mod (a mod 3600000000) 60000000 ltac:(lia)) as E2.
  pose proof (Z.mod_pos_bound (a mod 3600000000) 60000000 ltac:(lia)) as B2.
  pose proof (Z.div_mod ((a mod 3600000000) mod 60000000) 1000000 ltac:(lia)) as E3.
  pose proof (Z.mod_pos_bound ((a mod 3600000000) mod 60000000) 1000000 ltac:(lia)) as B3.
  unfold parse_offset, format_offset_body. cbv zeta.
  set (hh := a / 3600000000) in *. set (r := a mod 3600000000) in *.
  set (mm := r / 60000000) in *. set (r' := r mod 60000000) in *.
  set (ss := r' / 1000000) in *. set (us := r' mod 1000000) in *.
  assert (Hhh : 0 <= hh < 24) by lia.
  assert (Hmm : 0 <= mm < 60) by lia.
  assert (Hss : 0 <= ss < 60) by lia.
  assert (Hoff : valid_offset (Some (sign * a)) = true).
  { unfold valid_offset, day_us. apply andb_true_iff. split; apply Z.ltb_lt; lia. }
  destruct (r' =? 0) eqn:Er.
  - apply Z.eqb_eq in Er.
    rewrite append_nil_r, !length_append, !pad_length. cbn [String.length Nat.add Nat.eqb orb].
    rewrite parse_hm by lia. cbn [mbind option_bind].
    replace (sign * (((hh * 60 + mm) * 60 + 0) * 1000000 + 0)) with (sign * a) by lia.
    now rewrite Hoff.
  - rewrite !length_append, !pad_length, format_fraction_length.
    match goal with
    | |- context [if ?b then _ else None] =>
        replace b with true by (destruct (us =? 0); reflexivity)
    end.
    rewrite parse_hms by lia. cbn [mbind option_bind].
    replace (sign * (((hh * 60 + mm) * 60 + ss) * 1000000 + us)) with (sign * a) by lia.
    now rewrite Hoff.
Qed.

Lemma differs_plain_all (c : ascii) (s : string) :
  c = "-"%char \/ c = "+"%char \/ c = "Z"%char ->
  all_chars is_plain s = true -> all_chars (differs c) s = true.
Proof. intros Hc. apply all_chars_impl. intros x. now apply plain_differs. Qed.

Lemma parse_time_format (hh mm ss us : Z) (tz : option Z) :
  0 <= hh < 100 -> 0 <= mm < 100 -> 0 <= ss < 100 -> 0 <= us < 1000000 ->
  valid_offset tz = true ->
  parse_time (format_time hh mm ss us ++ format_offset tz)
  = Some (hh, mm, ss, us, tz).
Proof.
  intros Hh Hm Hs Hu Hz. unfold parse_time.
  pose proof (format_time_plain hh mm ss us) as Hp.
  assert (Ht : parse_hh_mm_ss_ff (format_time hh mm ss us) = Some (hh, mm, ss, us))
    by (unfold format_time; now apply parse_hms).
  destruct tz as [off|]; unfold format_offset.
  - apply andb_true_iff in Hz as [Hlo%Z.ltb_lt Hhi%Z.ltb_lt].
    unfold day_us in Hlo, Hhi.
    pose proof (format_offset_body_plain (Z.abs off)) as Hb.
    destruct (off <? 0) eqn:Eo;
      [apply Z.ltb_lt in Eo | apply Z.ltb_ge in Eo];
      change ("-" ++ format_offset_body (Z.abs off))%string
        with (String "-" (format_offset_body (Z.abs off)));
      change ("+" ++ format_offset_body (Z.abs off))%string
        with (String "+" (format_offset_body (Z.abs off)));
      unfold split_offset.
    + rewrite split_at_app by (apply differs_plain_all; auto).
      rewrite Ht. cbn [mbind option_bind].
      rewrite parse_offset_format by (unfold day_us; lia).
      cbn [mbind option_bind]. do 3 f_equal. lia.
    + rewrite split_at_absent.
      2:{ rewrite all_chars_app. cbn [all_chars].
          rewrite !differs_plain_all by auto. reflexivity. }
      rewrite split_at_app by (apply differs_plain_all; auto).
      rewrite Ht. cbn [mbind option_bind].
      rewrite parse_offset_format by (unfold day_us; lia).
      cbn [mbind option_bind]. do 3 f_equal. lia.
  - rewrite append_nil_r. unfold split_offset.
    rewrite !split_at_absent by (apply differs_plain_all; auto).
    now rewrite Ht.
Qed.

Lemma days_in_month_le (y m : Z) : 28 <= days_in_month y m <= 31.
Proof.
  unfold days_in_month.
  repeat match goal with |- context [if ?b then _ else _] => destruct b end; lia.
Qed.

Lemma valid_fields_bounds (y m d hh mm ss us : Z) :
  valid_fields y m d hh mm ss us = true ->
  1 <= y <= 9999 /\ 1 <= m <= 12 /\ 1 <= d <= 31
  /\ 0 <= hh <= 23 /\ 0 <= mm <= 59 /\ 0 <= ss <= 59 /\ 0 <= us <= 999999.
Proof.
  unfold valid_fields. rewrite !andb_true_iff, !Z.leb_le.
  pose proof (days_in_month_le y m). lia.
Qed.

(** [fromisoformat] inverts [isoformat] on every datetime value. *)
Lemma parse_isoformat (dt : datetime) :
  valid dt = true -> parse (isoformat dt) = Some dt.
Proof.
  destruct dt as [y m d hh mm ss us tz].
  unfold valid. cbn [year month day hour minute second microsecond tzoffset].
  intros [Hf Hz]%andb_true_iff.
  pose proof (valid_fields_bounds _ _ _ _ _ _ _ Hf) as B.
  unfold parse, isoformat, parse_date.
  cbn [year month day hour minute second microsecond tzoffset].
  rewrite digits_pad_exact by (simpl; lia). cbn -[pad digits format_time format_offset].
  rewrite digits_pad_exact by (simpl; lia). cbn -[pad digits format_time format_offset].
  rewrite digits_pad_exact by (simpl; lia). cbn -[pad digits format_time format_offset].
  rewrite parse_time_format by (auto; lia).
  cbn [mbind option_bind]. now rewrite Hf.
Qed.

Lemma parse_valid (s : string) (dt : datetime) :
  parse s = Some dt -> valid dt = true.
Proof.
  unfold parse. destruct (parse_date s) as [[[[y m] d] rest]|]; [|discriminate].
  cbn [mbind option_bind].
  assert (Htz : forall t hh mm ss us tz,
             parse_time t = Some (hh, mm, ss, us, tz) -> valid_offset tz = true).
  { intros t hh mm ss us tz. unfold parse_time.
    destruct (split_offset t) as [t' [[sign zs]|]];
      destruct (parse_hh_mm_ss_ff t') as [[[[h1 m1] s1] u1]|];
      cbn [mbind option_bind]; try discriminate.
    - unfold parse_offset. destruct (_ || _); [|discriminate].
      destruct (parse_hh_mm_ss_ff zs) as [[[[h2 m2] s2] u2]|];
        cbn [mbind option_bind]; [|discriminate].
      destruct (valid_offset _) eqn:E; cbn [mbind option_bind]; [|discriminate].
      intros [= <- <- <- <- <-]. exact E.
    - now intros [= <- <- <- <- <-]. }
  destruct rest as [|sep t].
  - cbn [mbind option_bind].
    destruct (valid_fields y m d 0 0 0 0) eqn:E; [|discriminate].
    intros [= <-]. unfold valid.
    cbn [year month day hour minute second microsecond tzoffset].
    now rewrite E.
  - destruct (parse_time t) as [[[[[hh mm] ss] us] tz]|] eqn:Et;
      cbn [mbind option_bind]; [|discriminate].
    destruct (valid_fields y m d hh mm ss us) eqn:E; [|discriminate].
    intros [= <-]. unfold valid. cbn [year month day hour minute second microsecond tzoffset].
    rewrite E. now apply (Htz _ _ _ _ _ _ Et).
Qed.

Lemma replace_absent (c : ascii) (new s : string) :
  all_chars (differs c) s = true -> replace c new s = s.
Proof.
  induction s as [|x s IH]; simpl; [reflexivity|].
  unfold differs at 1. intros [Hx Hs]%andb_true_iff.
  apply negb_true_iff in Hx. now rewrite Hx, IH.
Qed.

Lemma format_offset_no_Z (tz : option Z) :
  all_chars (differs "Z") (format_offset tz) = true.
Proof.
  destruct tz as [off|]; [|reflexivity]. unfold format_offset.
  rewrite all_chars_app, (differs_plain_all "Z" (format_offset_body _))
    by auto using format_offset_body_plain.
  now destruct (off <? 0).
Qed.

Lemma isoformat_no_Z (dt : datetime) : all_chars (differs "Z") (isoformat dt) = true.
Proof.
  unfold isoformat. rewrite !all_chars_app.
  rewrite !(differs_plain_all "Z" (pad _ _)) by auto using pad_plain.
  rewrite (differs_plain_all "Z" (format_time _ _ _ _)) by auto using format_time_plain.
  now rewrite format_offset_no_Z.
Qed.

End iso_roundtrip.

(** ** Date normalisation *)

Lemma fromisoformat_isoformat (s : string) (dt : datetime) :
  fromisoformat s = Ok dt -> fromisoformat (isoformat dt) = Ok dt.
Proof.
  unfold fromisoformat. destruct (parse s) as [dt'|] eqn:E; [|discriminate].
  intros [= <-]. now rewrite (parse_isoformat _ (parse_valid _ _ E)).
Qed.

Lemma replace_app (c : ascii) (new a b : string) :
  replace c new (a ++ b) = (replace c new a ++ replace c new b)%string.
Proof.
  induction a as [|x a IH]; simpl; [reflexivity|].
  rewrite IH. destruct (Ascii.eqb x c); [now rewrite append_assoc | reflexivity].
Qed.

(** C5, as amended.  [parse_iso_datetime] never raises, whatever value
    it is given.  A false value (absent, empty) gives the empty string.
    For a non-empty string every "Z" is replaced by "+00:00" (so a
    trailing UTC marker becomes an offset), the result is parsed, and on
    success the ISO rendering of the parsed datetime is returned, which
    parses back to the same datetime; on a parse failure, and for any
    value that is not a string, the empty string is returned. *)
Theorem parse_iso_datetime_total (value : json) :
  (exists s, parse_iso_datetime value = Ok s)
  /\ (truthy value = false -> parse_iso_datetime value = Ok "")
  /\ (forall str dt,
        value = JStr str -> str <> ""%string ->
        fromisoformat (replace "Z" "+00:00" str) = Ok dt ->
        parse_iso_datetime value = Ok (isoformat dt)
        /\ fromisoformat (isoformat dt) = Ok dt)
  /\ (forall str e,
        value = JStr str ->
        fromisoformat (replace "Z" "+00:00" str) = Raise e ->
        parse_iso_datetime value = Ok "")
  /\ ((forall str, value <> JStr str) -> parse_iso_datetime value = Ok "")
  /\ (forall str,
        all_chars (differs "Z") str = true ->
        replace "Z" "+00:00" (str ++ "Z") = (str ++ "+00:00")%string).
Proof.
  split; [|split; [|split; [|split; [|split]]]].
  - unfold parse_iso_datetime. destruct (negb (truthy value)); [eauto|].
    destruct value as [| | |s| |]; simpl; eauto.
    destruct (fromisoformat _); simpl; eauto.
  - intros H. unfold parse_iso_datetime. now rewrite H.
  - intros str dt -> Hne Hdt. split; [|now apply (fromisoformat_isoformat _ _ Hdt)].
    unfold parse_iso_datetime. destruct str; [contradiction|].
    cbn [truthy nonempty negb replace_method mbind result_bind].
    now rewrite Hdt.
  - intros str e -> Hdt. unfold parse_iso_datetime.
    destruct (negb (truthy (JStr str))); [reflexivity|].
    cbn [replace_method mbind result_bind]. now rewrite Hdt.
  - intros H. unfold parse_iso_datetime.
    destruct value as [| | |s| |]; try (now destruct (negb _)).
    now destruct (H s).
  - intros str H. rewrite replace_app, (replace_absent _ _ _ H). reflexivity.
Qed.

(** The examples of the specification, through the theorem. *)
Lemma parse_iso_datetime_total_witness :
  parse_iso_datetime (JStr "2024-01-15T10:00:00Z") = Ok "2024-01-15T10:00:00+00:00"
  /\ fromisoformat "2024-01-15T10:00:00+00:00" = Ok (Datetime 2024 1 15 10 0 0 0 (Some 0))
  /\ parse_iso_datetime (JStr "not-a-date") = Ok ""
  /\ parse_iso_datetime JNull = Ok "".
Proof.
  pose proof (parse_iso_datetime_total (JStr "2024-01-15T10:00:00Z")) as (_ & _ & H1 & _).
  pose proof (parse_iso_datetime_total (JStr "not-a-date")) as (_ & _ & _ & H2 & _).
  pose proof (parse_iso_datetime_total JNull) as (_ & H3 & _).
  split; [|split; [|split]].
  - apply (H1 "2024-01-15T10:00:00Z"%string (Datetime 2024 1 15 10 0 0 0 (Some 0)));
      [reflexivity | discriminate | reflexivity].
  - reflexivity.
  - apply (H2 "not-a-date"%string ValueError); reflexivity.
  - apply H3. reflexivity.
Defined.

(** C5, as stated, fails: a "Z" that is not trailing is replaced too.
    With "Z" as the separator between date and time the string is a
    valid ISO form, which the rule of the specification would parse,
    and the program returns the empty string for it. *)
Lemma parse_iso_datetime_trailing_counterexample :
  parse_iso_datetime_trailing (JStr "2024-01-15Z10:00:00") = Ok "2024-01-15T10:00:00"
  /\ parse_iso_datetime (JStr "2024-01-15Z10:00:00") = Ok ""
  /\ parse_iso_datetime (JStr "2024-01-15Z10:00:00")
     <> parse_iso_datetime_trailing (JStr "2024-01-15Z10:00:00").
Proof. repeat split; try reflexivity. vm_compute. discriminate. Qed.

(** ** Deduplication *)

Section dedup_facts.

Lemma dedup_loop_from (jobs : list Job) (seen : gset (string * string)) (acc : list Job) :
  dedup_loop jobs seen acc = acc ++ dedup_from seen jobs.
Proof.
  revert seen acc; induction jobs as [|job rest IH]; intros seen acc; simpl.
  - now rewrite app_nil_r.
  - destruct (decide (dedup_key job ∈ seen)); [apply IH|].
    rewrite IH, <- app_assoc. reflexivity.
Qed.

Lemma filter_keep_first (P : string * string -> Prop) `{!forall k, Decision (P k)}
    (jobs : list Job) :
  filter (fun j => P (dedup_key j)) (keep_first jobs)
  = keep_first (filter (fun j => P (dedup_key j)) jobs).
Proof.
  induction jobs as [|job rest IH]; [reflexivity|].
  cbn [keep_first]. rewrite !filter_cons.
  destruct (decide (P (dedup_key job))) as [Hp|Hp].
  - cbn [keep_first]. f_equal. rewrite <- IH.
    rewrite !list_filter_filter. apply list_filter_iff. tauto.
  - rewrite <- IH, list_filter_filter. apply list_filter_iff.
    intros j. split; [tauto|]. intros Hj. split; [exact Hj|congruence].
Qed.

Lemma dedup_from_keep_first (seen : gset (string * string)) (jobs : list Job) :
  dedup_from seen jobs = keep_first (filter (fun j => dedup_key j ∉ seen) jobs).
Proof.
  revert seen; induction jobs as [|job rest IH]; intros seen; [reflexivity|].
  cbn [dedup_from]. rewrite filter_cons.
  destruct (decide (dedup_key job ∈ seen)) as [Hin|Hnot].
  - rewrite decide_False by tauto. apply IH.
  - rewrite decide_True by exact Hnot. cbn [keep_first]. f_equal.
    rewrite IH.
    pose proof (filter_keep_first (fun k => k <> dedup_key job)
                  (filter (fun j => dedup_key j ∉ seen) rest)) as H.
    cbv beta in H. rewrite H.
    rewrite list_filter_filter. f_equal. apply list_filter_iff.
    intros j. rewrite elem_of_union, elem_of_singleton. tauto.
Qed.

Lemma dedup_keep_first (jobs : list Job) : dedup jobs = keep_first jobs.
Proof.
  unfold dedup. rewrite dedup_loop_from, dedup_from_keep_first. cbn [app].
  f_equal. induction jobs as [|job rest IH]; [reflexivity|].
  rewrite filter_cons, decide_True by set_solver. now rewrite IH.
Qed.

Lemma keep_first_sublist (jobs : list Job) : sublist (keep_first jobs) jobs.
Proof.
  induction jobs as [|job rest IH]; [constructor|].
  cbn [keep_first]. apply sublist_skip.
  etransitivity; [apply sublist_filter | exact IH].
Qed.

Lemma keep_first_keys_NoDup (jobs : list Job) : NoDup (dedup_key <$> keep_first jobs).
Proof.
  induction jobs as [|job rest IH]; [constructor|].
  cbn [keep_first fmap list_fmap]. apply NoDup_cons_2.
  - intros (j & Hk & Hj)%list_elem_of_fmap.
    apply list_elem_of_filter in Hj as [Hne _]. congruence.
  - apply (sublist_NoDup _ (dedup_key <$> keep_first rest)); [exact IH|].
    apply fmap_sublist, sublist_filter.
Qed.


End dedup_facts.



(** ** The adapters and the network *)

Section adapter_facts.

Ltac io_unfold :=
  cbv [mbind io_mbind io_bind mret io_mret io_ret io_lift io_try
       guarded_get get_checked requests_get run].

(** The guarded call: the request is logged, and a failed outcome
    becomes the early return. *)
Lemma guarded_get_run (req : request) (net : Net) (log : list request) :
  guarded_get req net log
  = (log ++ [req],
     Ok (match net req with
         | NoResponse => None
         | Response status body =>
             if (400 <=? status) && (status <? 600) then None
             else Some (status, body)
         end)).
Proof.
  io_unfold. destruct (net req) as [|status body]; [reflexivity|].
  unfold raise_for_status. cbn [fst].
  destruct ((400 <=? status) && (status <? 600)); reflexivity.
Qed.

Lemma guarded_get_failed (req : request) (net : Net) (log : list request) :
  failed (net req) = true -> guarded_get req net log = (log ++ [req], Ok None).
Proof.
  intros H. rewrite guarded_get_run. destruct (net req) as [|status body];
    [reflexivity|]. cbn [failed] in H. now rewrite H.
Qed.

(** What an adapter does from any state of the log: it appends its
    own calls, and its result does not depend on the log. *)
Lemma fetch_log (p : provider) (env : Env) (net : Net) (log : list request) :
  fetch p env net log
  = (log ++ fst (run (fetch p env) net), snd (run (fetch p env) net)).
Proof.
  destruct p; cbn [fetch];
    unfold fetch_remotive_jobs, fetch_adzuna_jobs, fetch_jsearch_jobs,
      fetch_careerjet_jobs, fetch_themuse_jobs, fetch_usajobs;
    cbv zeta;
    repeat match goal with
           | |- context [if ?b then _ else _] =>
               destruct b; [cbv [mret io_mret io_ret run]; cbn [fst snd];
                            now rewrite app_nil_r|]
           end;
    cbv [mbind io_mbind io_bind run]; rewrite !guarded_get_run;
    match goal with
    | |- context [net ?r] => destruct (net r) as [|status body]
    end;
    try (cbv [mret io_mret io_ret]; reflexivity);
    destruct ((400 <=? status) && (status <? 600));
    cbv [mret io_mret io_ret io_lift]; reflexivity.
Qed.

Lemma skipped_fetch (p : provider) (env : Env) (net : Net) (log : list request) :
  skipped p env = true -> fetch p env net log = (log, Ok []).
Proof.
  unfold skipped.
  destruct p; cbn [required_credentials existsb fetch]; try discriminate;
    unfold fetch_adzuna_jobs, fetch_jsearch_jobs, fetch_careerjet_jobs,
      fetch_themuse_jobs; cbv zeta; rewrite ?orb_false_r;
    intros ->; reflexivity.
Qed.

Lemma failed_fetch (p : provider) (env : Env) (net : Net) (log : list request) :
  failed (net (request_of p env)) = true -> snd (fetch p env net log) = Ok [].
Proof.
  intros H. destruct (skipped p env) eqn:Hs; [now rewrite skipped_fetch|].
  revert Hs H. unfold skipped.
  destruct p; cbn [required_credentials existsb fetch request_of];
    unfold fetch_remotive_jobs, fetch_adzuna_jobs, fetch_jsearch_jobs,
      fetch_careerjet_jobs, fetch_themuse_jobs, fetch_usajobs;
    cbv zeta; rewrite ?orb_false_r; intros Hs H; rewrite ?Hs;
    cbv [mbind io_mbind io_bind]; rewrite (guarded_get_failed _ _ _ H);
    reflexivity.
Qed.

Lemma not_json_fetch (p : provider) (env : Env) (net : Net) (log : list request) :
  skipped p env = false -> not_json (net (request_of p env)) = true ->
  snd (fetch p env net log) = Raise ValueError.
Proof.
  unfold skipped.
  destruct p; cbn [required_credentials existsb fetch request_of];
    unfold fetch_remotive_jobs, fetch_adzuna_jobs, fetch_jsearch_jobs,
      fetch_careerjet_jobs, fetch_themuse_jobs, fetch_usajobs;
    cbv zeta; rewrite ?orb_false_r; intros Hs H; rewrite ?Hs;
    cbv [mbind io_mbind io_bind]; rewrite guarded_get_run;
    match goal with
    | H : not_json (net ?r) = true |- _ =>
        destruct (net r) as [|status [body|]]; try discriminate H;
        cbn [not_json] in H; apply negb_true_iff in H; rewrite H
    end; reflexivity.
Qed.

End adapter_facts.

(** C7.  An adapter with required credentials returns the empty list
    without touching the network as soon as one of them is absent from
    the environment (or empty); the USAJobs adapter has no required
    credential and always issues its request. *)
Theorem missing_credentials_no_call (env : Env) (net : Net) :
  (forall p k,
      In k (required_credentials p) -> env !! k = None ->
      run (fetch p env) net = ([], Ok []))
  /\ (forall p k,
      In k (required_credentials p) -> env !! k = Some ""%string ->
      run (fetch p env) net = ([], Ok []))
  /\ required_credentials USAJobs = []
  /\ fst (run (fetch_usajobs env) net)
     = [usajobs_request (getenv_d env "USAJOBS_EMAIL" "user@example.com")
                        (getenv env "USAJOBS_API_KEY")].
Proof.
  assert (Hskip : forall p k, In k (required_credentials p) ->
                    missing (getenv env k) = true -> skipped p env = true).
  { intros p k Hin Hk. unfold skipped. apply existsb_exists. eauto. }
  split; [|split; [|split]].
  - intros p k Hin Hk. apply skipped_fetch, (Hskip p k Hin).
    unfold getenv. now rewrite Hk.
  - intros p k Hin Hk. apply skipped_fetch, (Hskip p k Hin).
    unfold getenv. now rewrite Hk.
  - reflexivity.
  - unfold run, fetch_usajobs. cbv zeta. cbv [mbind io_mbind io_bind].
    rewrite guarded_get_run.
    match goal with |- context [net ?r] => destruct (net r) as [|status body] end;
      [reflexivity|].
    destruct ((400 <=? status) && (status <? 600)); reflexivity.
Qed.

(** With an empty environment the Adzuna adapter makes no call, and the
    USAJobs adapter makes one. *)
Lemma missing_credentials_no_call_witness :
  run (fetch Adzuna ∅) (fun _ => NoResponse) = ([], Ok [])
  /\ length (fst (run (fetch_usajobs ∅) (fun _ => NoResponse))) = 1%nat.
Proof.
  pose proof (missing_credentials_no_call ∅ (fun _ => NoResponse)) as (H & _ & _ & Hu).
  split.
  - apply (H Adzuna "ADZUNA_APP_KEY"%string); [simpl; auto | reflexivity].
  - now rewrite Hu.
Defined.

(** ** Aggregation over providers *)

Section gather_facts.

Lemma gather_log (ps : list provider) (env : Env) (acc : list Job)
    (net : Net) (log : list request) :
  gather ps env acc net log
  = (log ++ fst (gather ps env acc net []), snd (gather ps env acc net [])).
Proof.
  revert acc log; induction ps as [|p ps IH]; intros acc log.
  - cbn. now rewrite app_nil_r.
  - cbn [gather]. cbv [mbind io_mbind io_bind].
    rewrite (fetch_log p env net log), (fetch_log p env net []).
    destruct (snd (run (fetch p env) net)) as [r|e]; cbn [app].
    + rewrite (IH _ (log ++ _)), (IH _ (fst (run (fetch p env) net))).
      cbn [fst snd]. now rewrite app_assoc.
    + reflexivity.
Qed.

Lemma gather_result_log (ps : list provider) (env : Env) (acc : list Job)
    (net : Net) (log log' : list request) :
  snd (gather ps env acc net log) = snd (gather ps env acc net log').
Proof. now rewrite (gather_log _ _ _ _ log), (gather_log _ _ _ _ log'). Qed.

(** A provider that contributes nothing can be left out. *)
Lemma gather_without (p : provider) (ps : list provider) (env : Env)
    (acc : list Job) (net : Net) (log : list request) :
  snd (run (fetch p env) net) = Ok [] ->
  snd (gather ps env acc net log)
  = snd (gather (filter (fun q => q <> p) ps) env acc net log).
Proof.
  intros Hp. revert acc log; induction ps as [|q ps IH]; intros acc log;
    [reflexivity|].
  rewrite filter_cons. destruct (decide (q <> p)) as [Hne|Heq].
  - cbn [gather]. cbv [mbind io_mbind io_bind].
    destruct (fetch q env net log) as [log' [r|e]]; [apply IH | reflexivity].
  - assert (q = p) as -> by (destruct (decide (q = p)); tauto).
    cbn [gather]. cbv [mbind io_mbind io_bind].
    rewrite (fetch_log p env net log), Hp, app_nil_r.
    rewrite <- IH. apply gather_result_log.
Qed.

Lemma gather_raise (p : provider) (ps : list provider) (env : Env)
    (acc : list Job) (net : Net) (log : list request) (e : exn) :
  In p ps -> snd (run (fetch p env) net) = Raise e ->
  exists e', snd (gather ps env acc net log) = Raise e'.
Proof.
  intros Hin Hp. revert acc log; induction ps as [|q ps IH]; intros acc log;
    [destruct Hin|].
  cbn [gather]. cbv [mbind io_mbind io_bind].
  rewrite (fetch_log q env net log).
  destruct (snd (run (fetch q env) net)) as [r|e'] eqn:Eq; [|eauto].
  destruct Hin as [->|Hin]; [congruence | now apply IH].
Qed.

(** [normalize_jobs] is the aggregation over the six providers. *)
Lemma normalize_jobs_aggregate (env : Env) (limit : Z) (net : Net)
    (log : list request) :
  normalize_jobs env limit net log = aggregate providers env limit net log.
Proof.
  unfold normalize_jobs, aggregate, providers. cbn [gather fetch app].
  cbv [mbind io_mbind io_bind mret io_mret io_ret].
  destruct (fetch_remotive_jobs net log) as [l1 [r1|e]]; [|reflexivity].
  destruct (fetch_adzuna_jobs env net l1) as [l2 [r2|e]]; [|reflexivity].
  destruct (fetch_jsearch_jobs env net l2) as [l3 [r3|e]]; [|reflexivity].
  destruct (fetch_careerjet_jobs env net l3) as [l4 [r4|e]]; [|reflexivity].
  destruct (fetch_themuse_jobs env net l4) as [l5 [r5|e]]; [|reflexivity].
  destruct (fetch_usajobs env net l5) as [l6 [r6|e]]; reflexivity.
Qed.

Lemma aggregate_result (ps : list provider) (env : Env) (limit : Z)
    (net : Net) (log : list request) :
  snd (aggregate ps env limit net log)
  = match snd (gather ps env [] net []) with
    | Ok jobs => rank limit jobs
    | Raise e => Raise e
    end.
Proof.
  unfold aggregate. cbv [mbind io_mbind io_bind io_lift].
  rewrite (gather_log ps env [] net log).
  destruct (snd (gather ps env [] net [])); reflexivity.
Qed.

(** The route handler never raises. *)
Lemma index_result (env : Env) (net : Net) :
  snd (run (index env) net)
  = match snd (run (normalize_jobs env default_limit) net) with
    | Ok jobs => Ok (map (fun job => (job, slug_for_category (job_category job))) jobs)
    | Raise _ => Ok []
    end.
Proof.
  unfold index, run. cbv [io_try mbind io_mbind io_bind mret io_mret io_ret].
  destruct (normalize_jobs env default_limit net []) as [l [jobs|e]]; reflexivity.
Qed.

End gather_facts.

(** C1, as amended.  When the request of a provider meets no response
    or a 4xx or 5xx status, its adapter catches the failure and returns
    the empty list, and [normalize_jobs] yields exactly what aggregating
    the other five providers yields.  A failure past the status check
    is not caught by the adapter: with a body that is not JSON the
    adapter raises, [normalize_jobs] raises with it, and only the route
    handler turns that into an empty job list. *)
Theorem provider_failure_contained (p : provider) (env : Env) (net : Net) (limit : Z) :
  (failed (net (request_of p env)) = true ->
   (forall log, snd (fetch p env net log) = Ok [])
   /\ snd (run (normalize_jobs env limit) net)
      = snd (run (aggregate (others p) env limit) net))
  /\ (skipped p env = false -> not_json (net (request_of p env)) = true ->
      (forall log, snd (fetch p env net log) = Raise ValueError)
      /\ (exists e, snd (run (normalize_jobs env limit) net) = Raise e)
      /\ snd (run (index env) net) = Ok []).
Proof.
  split.
  - intros H. split; [intros log; now apply failed_fetch|].
    unfold run. rewrite normalize_jobs_aggregate, !aggregate_result.
    unfold others. rewrite <- gather_without; [reflexivity|].
    now apply failed_fetch.
  - intros Hs H.
    assert (Hraise : forall lim, exists e,
               snd (run (normalize_jobs env lim) net) = Raise e).
    { intros lim. unfold run. rewrite normalize_jobs_aggregate, aggregate_result.
      destruct (gather_raise p providers env [] net [] ValueError) as [e He].
      - destruct p; simpl; auto 10.
      - now apply not_json_fetch.
      - rewrite He. eauto. }
    split; [intros log; now apply not_json_fetch|]. split; [apply Hraise|].
    rewrite index_result. destruct (Hraise default_limit) as [e ->]. reflexivity.
Qed.

(** Adzuna answering 500 next to a working Remotive: the Remotive
    record comes through. *)
Lemma provider_failure_contained_witness :
  failed (net_adzuna_500 (request_of Adzuna adzuna_env)) = true
  /\ snd (run (fetch Adzuna adzuna_env) net_adzuna_500) = Ok []
  /\ (exists job,
        snd (run (normalize_jobs adzuna_env 50) net_adzuna_500) = Ok [job]
        /\ job_title job = "Backend Developer"%string
        /\ job_source job = "Remotive"%string).
Proof.
  assert (H : failed (net_adzuna_500 (request_of Adzuna adzuna_env)) = true)
    by reflexivity.
  destruct (proj1 (provider_failure_contained Adzuna adzuna_env net_adzuna_500 50) H)
    as [Hfetch Hnorm].
  split; [exact H|]. split; [apply Hfetch|].
  rewrite Hnorm. vm_compute. eexists. split; [reflexivity|]. split; reflexivity.
Defined.

(** C1, as stated, fails.  A malformed payload is not caught: with
    Adzuna answering 200 and a body that is not JSON the adapter raises
    and [normalize_jobs] is aborted, although Remotive had a record.  A
    status outside 2xx is not always caught either: a 304 passes
    [raise_for_status]. *)
Lemma provider_failure_counterexample :
  snd (run (fetch_remotive_jobs) net_adzuna_html) <> Ok []
  /\ snd (run (fetch_adzuna_jobs adzuna_env) net_adzuna_html) = Raise ValueError
  /\ snd (run (normalize_jobs adzuna_env 50) net_adzuna_html) = Raise ValueError
  /\ snd (run fetch_remotive_jobs net_remotive_304) = Raise ValueError
  /\ snd (run (normalize_jobs ∅ 50) net_remotive_304) = Raise ValueError.
Proof. vm_compute. repeat split; try reflexivity. discriminate. Qed.

(** ** Records built by the adapters *)

Section item_facts.

Lemma nonempty_true (s : string) : nonempty s = true -> s <> ""%string.
Proof. now destruct s. Qed.

Lemma emit_inv (required : bool) (title company location url src : string)
    (date : result json) (job : Job) :
  emit required title company location url src date = Ok (Some job) ->
  required = true
  /\ exists raw published,
       date = Ok raw /\ parse_iso_datetime raw = Ok published
       /\ job = mkJob (generate_job_id title company src) title company
                      location url (categorize_job title) src published.
Proof.
  unfold emit. destruct required; [|discriminate]. cbn [negb].
  destruct date as [raw|e]; cbn [mbind result_bind]; [|discriminate].
  destruct (parse_iso_datetime raw) as [published|e] eqn:E;
    cbn [mbind result_bind]; [|discriminate].
  intros [= <-]. eauto 10.
Qed.

Lemma get_d_absent (v : json) (k : string) (default x : json) :
  has_key k v = false -> get_d v k default = Ok x -> x = default.
Proof.
  destruct v as [| | | | |d]; try discriminate. cbn [has_key get_d].
  destruct (dict_lookup k d); [discriminate|]. now intros _ [= <-].
Qed.

Lemma get_absent (v : json) (k : string) (x : json) :
  has_key k v = false -> get v k = Ok x -> x = JNull.
Proof. apply get_d_absent. Qed.

Lemma or_else_null (b : result json) (x : json) :
  or_else JNull b = Ok x -> b = Ok x.
Proof. trivial. Qed.

End item_facts.

(** Inversion of a chain of binds that ended well. *)
Ltac bind_inv H :=
  repeat match type of H with
         | mbind _ ?m = Ok _ =>
             let E := fresh "E" in
             destruct m eqn:E; cbn [mbind result_bind] in H; [|discriminate H]
         | result_bind _ _ _ ?m = Ok _ =>
             let E := fresh "E" in
             destruct m eqn:E; cbn [result_bind] in H; [|discriminate H]
         end.

Lemma strip_Remote : strip "Remote" = "Remote"%string.
Proof. reflexivity. Qed.

Lemma strip_US_Government : strip "US Government" = "US Government"%string.
Proof. reflexivity. Qed.

Lemma append_if_absent (item : json) (k : string) (parts r : list json) :
  has_key k item = false -> append_if item k parts = Ok r -> r = parts.
Proof.
  intros K. unfold append_if.
  destruct (get item k) as [v|] eqn:E; cbn [mbind result_bind]; [|discriminate].
  apply (get_absent _ _ _ K) in E. subst v. cbn [truthy]. now intros [= <-].
Qed.

(** Reading keys that are not there. *)
Ltac absent_inv :=
  repeat match goal with
         | K : has_key ?k ?v = false, E : get ?v ?k = Ok ?x |- _ =>
             apply (get_absent _ _ _ K) in E; subst x
         | K : has_key ?k ?v = false, E : get_d ?v ?k _ = Ok ?x |- _ =>
             apply (get_d_absent _ _ _ _ K) in E; subst x
         | K : has_key ?k ?v = false, E : append_if ?v ?k _ = Ok ?x |- _ =>
             apply (append_if_absent _ _ _ _ K) in E; subst x
         | E : or_else JNull _ = Ok _ |- _ => apply or_else_null in E
         end.

(** Evaluation of the reads whose arguments are known. *)
Ltac known_reads :=
  repeat match goal with
         | E : Ok _ = Ok ?x |- _ => is_var x; injection E as <-
         | E : _ = Ok ?x |- _ =>
             is_var x;
             progress cbn [get get_d dict_lookup or_else or_ truthy nonempty
                           mbind result_bind subscript0 strip_method
                           join_method strings_of] in E;
             rewrite ?strip_Remote, ?strip_US_Government in E;
             match type of E with Ok _ = Ok x => injection E as <- end
         end.

(** The default reaches the record. *)
Ltac location_default := absent_inv; known_reads; reflexivity.

Ltac record_start H :=
  intros H; bind_inv H;
  apply emit_inv in H as (Hreq & raw & published & _ & Hpub & ->);
  unfold well_formed, location_absent;
  cbn [job_title job_url job_company job_source job_location job_id job_category
       job_published provider_name descriptor location_keys forallb];
  rewrite ?andb_true_iff in Hreq.

Lemma remotive_item_record (item : json) (job : Job) :
  remotive_item item = Ok (Some job) -> well_formed Remotive item job.
Proof.
  unfold remotive_item. destruct (isinstance_dict item); [|discriminate].
  cbn [negb]. record_start H. destruct Hreq as [[Ht Hc] Hu].
  repeat split; auto using nonempty_true; try discriminate; eauto.
  rewrite !andb_true_iff, !negb_true_iff. intros (K1 & K2 & _).
  location_default.
Qed.

Lemma adzuna_item_record (item : json) (job : Job) :
  adzuna_item item = Ok (Some job) -> well_formed Adzuna item job.
Proof.
  unfold adzuna_item. record_start H. destruct Hreq as [[Ht Hc] Hu].
  repeat split; auto using nonempty_true; try discriminate; eauto.
  rewrite !andb_true_iff, !negb_true_iff. intros (K1 & _).
  location_default.
Qed.

Lemma jsearch_item_record (item : json) (job : Job) :
  jsearch_item item = Ok (Some job) -> well_formed JSearch item job.
Proof.
  unfold jsearch_item. record_start H. destruct Hreq as [[Ht Hc] Hu].
  repeat split; auto using nonempty_true; try discriminate; eauto.
  rewrite !andb_true_iff, !negb_true_iff. intros (K1 & K2 & K3 & _).
  location_default.
Qed.

Lemma careerjet_item_record (item : json) (job : Job) :
  careerjet_item item = Ok (Some job) -> well_formed Careerjet item job.
Proof.
  unfold careerjet_item. record_start H. destruct Hreq as [[Ht Hc] Hu].
  repeat split; auto using nonempty_true; try discriminate; eauto.
  rewrite !andb_true_iff, !negb_true_iff. intros (K1 & K2 & _).
  location_default.
Qed.

Lemma themuse_item_record (item : json) (job : Job) :
  themuse_item item = Ok (Some job) -> well_formed TheMuse item job.
Proof.
  unfold themuse_item. record_start H. destruct Hreq as [[Ht Hc] Hu].
  repeat split; auto using nonempty_true; try discriminate; eauto.
  rewrite !andb_true_iff, !negb_true_iff. intros (K1 & _).
  location_default.
Qed.

Lemma usajobs_item_record (item : json) (job : Job) :
  usajobs_item item = Ok (Some job) -> well_formed USAJobs item job.
Proof.
  unfold usajobs_item, first_or. record_start H. destruct Hreq as [Ht Hu].
  rewrite E.
  repeat split; auto using nonempty_true; try discriminate; eauto.
  - rewrite !andb_true_iff, !negb_true_iff. intros (K1 & _).
    location_default.
  - intros _ K. location_default.
Qed.

Lemma item_body_record (p : provider) (item : json) (job : Job) :
  item_body p item = Ok (Some job) -> well_formed p item job.
Proof.
  destruct p; cbn [item_body];
    auto using remotive_item_record, adzuna_item_record, jsearch_item_record,
      careerjet_item_record, themuse_item_record, usajobs_item_record.
Qed.

(** Every record the loop returns was there before or was built from
    one of the items. *)
Lemma for_items_elem (body : json -> result (option Job)) (items : list json)
    (acc jobs : list Job) :
  for_items body items acc = Ok jobs ->
  forall job, In job jobs ->
    In job acc \/ exists item, In item items /\ body item = Ok (Some job).
Proof.
  revert acc; induction items as [|item rest IH]; intros acc; cbn [for_items].
  - intros [= <-]. auto.
  - destruct (body item) as [[j|]|e] eqn:E; [| |discriminate].
    + intros H job Hin. destruct (IH _ H job Hin) as [Hacc | (it & Hit & Hb)].
      * apply in_app_or in Hacc as [Hacc | [<- | []]]; [auto|].
        right. exists item. split; [now left | exact E].
      * right. exists it. split; [now right | exact Hb].
    + intros H job Hin. destruct (IH _ H job Hin) as [Hacc | (it & Hit & Hb)];
        [auto|]. right. exists it. split; [now right | exact Hb].
Qed.

Lemma fetch_records (p : provider) (env : Env) (net : Net) (jobs : list Job) :
  snd (run (fetch p env) net) = Ok jobs ->
  forall job, In job jobs -> exists item, item_body p item = Ok (Some job).
Proof.
  unfold run.
  destruct p; cbn [fetch item_body];
    unfold fetch_remotive_jobs, fetch_adzuna_jobs, fetch_jsearch_jobs,
      fetch_careerjet_jobs, fetch_themuse_jobs, fetch_usajobs;
    cbv zeta;
    repeat match goal with
           | |- context [if ?b then _ else _] =>
               destruct b;
               [cbv [mret io_mret io_ret]; cbn [snd];
                intros [= <-] job []|]
           end;
    cbv [mbind io_mbind io_bind]; rewrite guarded_get_run;
    match goal with
    | |- context [net ?r] => destruct (net r) as [|status body]
    end;
    try (cbv [mret io_mret io_ret]; cbn [snd]; intros [= <-] job []);
    (destruct ((400 <=? status) && (status <? 600));
     [cbv [mret io_mret io_ret]; cbn [snd]; intros [= <-] job []|]);
    cbv [io_lift]; cbn [snd]; intros H; bind_inv H;
    intros job Hin;
    destruct (for_items_elem _ _ _ _ H job Hin) as [[] | (item & _ & Hb)];
    eauto.
Qed.

Section loop_facts.

(** The loop returns exactly when its body returns on every item, and
    then it returns what it started with followed by the records of
    the items, in item order. *)
Lemma for_items_spec (body : json -> result (option Job)) (items : list json)
    (acc jobs : list Job) :
  for_items body items acc = Ok jobs <->
  exists outs,
    Forall2 (fun item out => body item = Ok out) items outs
    /\ jobs = acc ++ omap id outs.
Proof.
  revert acc; induction items as [|item rest IH]; intros acc; cbn [for_items].
  - split.
    + intros [= <-]. exists []. split; [constructor | now rewrite app_nil_r].
    + intros (outs & Hf & ->). apply Forall2_nil_inv_l in Hf as ->.
      cbn. now rewrite app_nil_r.
  - destruct (body item) as [[j|]|e] eqn:E.
    + rewrite IH. split.
      * intros (outs & Hf & ->). exists (Some j :: outs).
        split; [now constructor | cbn; now rewrite <- app_assoc].
      * intros (outs & Hf & ->).
        apply Forall2_cons_inv_l in Hf as (o & outs' & Ho & Hf & ->).
        rewrite E in Ho. injection Ho as <-. exists outs'.
        split; [exact Hf | cbn; now rewrite <- app_assoc].
    + rewrite IH. split.
      * intros (outs & Hf & ->). exists (None :: outs).
        split; [now constructor | reflexivity].
      * intros (outs & Hf & ->).
        apply Forall2_cons_inv_l in Hf as (o & outs' & Ho & Hf & ->).
        rewrite E in Ho. injection Ho as <-. exists outs'.
        split; [exact Hf | reflexivity].
    + split; [discriminate|]. intros (outs & Hf & _).
      apply Forall2_cons_inv_l in Hf as (o & outs' & Ho & _). congruence.
Qed.

(** The loop raises what its body raises on the first item it cannot
    handle. *)
Lemma for_items_raise (body : json -> result (option Job))
    (before after : list json) (item : json) (e : exn) (acc : list Job) :
  Forall (fun i => exists out, body i = Ok out) before ->
  body item = Raise e ->
  for_items body (before ++ item :: after) acc = Raise e.
Proof.
  intros Hb He. revert acc; induction Hb as [|i before [out Hi] _ IH]; intros acc;
    cbn [app for_items].
  - now rewrite He.
  - rewrite Hi. destruct out; apply IH.
Qed.

End loop_facts.

Section partial_item_facts.


End partial_item_facts.








(** ** The sort key of adapter records *)

Lemma parse_iso_datetime_cases (raw : json) (s : string) :
  parse_iso_datetime raw = Ok s ->
  s = ""%string \/ exists str dt, fromisoformat str = Ok dt /\ s = isoformat dt.
Proof.
  unfold parse_iso_datetime. destruct (negb (truthy raw)); [intros [= <-]; auto|].
  destruct (replace_method raw "Z" "+00:00") as [str|e];
    cbn [mbind result_bind try_except]; [|intros [= <-]; auto].
  destruct (fromisoformat str) as [dt|e] eqn:E;
    cbn [mbind result_bind try_except]; intros [= <-]; eauto.
Qed.

Lemma isoformat_nonempty (dt : datetime) : nonempty (isoformat dt) = true.
Proof. reflexivity. Qed.

(** The sort key of an ISO rendering is the rendered datetime: the
    [try] of [sort_key] succeeds on it. *)
Lemma sort_key_isoformat (job : Job) (str : string) (dt : datetime) :
  fromisoformat str = Ok dt -> job_published job = isoformat dt ->
  fromisoformat (replace "Z" "+00:00" (job_published job)) = Ok dt
  /\ sort_key job = dt.
Proof.
  intros Hdt Hpub.
  assert (H : fromisoformat (replace "Z" "+00:00" (job_published job)) = Ok dt).
  { rewrite Hpub, replace_absent by apply isoformat_no_Z.
    exact (fromisoformat_isoformat _ _ Hdt). }
  split; [exact H|]. unfold sort_key. cbv zeta. rewrite H.
  now rewrite Hpub, isoformat_nonempty.
Qed.

(** C10.  The published field of every adapter record is the empty
    string or the ISO rendering of a datetime that was parsed; in the
    first case [sort_key] answers [datetime.min] through its emptiness
    check, in the second the parse inside [sort_key] succeeds and gives
    that datetime back, so the [except] branch of [sort_key] is never
    taken for an adapter record. *)
Theorem adapter_published_parses (p : provider) (env : Env) (net : Net)
    (jobs : list Job) (job : Job) :
  snd (run (fetch p env) net) = Ok jobs -> In job jobs ->
  (job_published job = ""%string /\ sort_key job = datetime_min)
  \/ (exists str dt,
        fromisoformat str = Ok dt
        /\ job_published job = isoformat dt
        /\ job_published job <> ""%string
        /\ fromisoformat (replace "Z" "+00:00" (job_published job)) = Ok dt
        /\ sort_key job = dt).
Proof.
  intros Hrun Hin. destruct (fetch_records p env net jobs Hrun job Hin) as [item Hb].
  destruct (item_body_record p item job Hb) as (_ & _ & _ & _ & _ & _ & _ & _ & raw & Hp).
  apply parse_iso_datetime_cases in Hp as [He | (str & dt & Hdt & Hs)].
  - left. split; [exact He|]. unfold sort_key. cbv zeta. now rewrite He.
  - right. exists str, dt.
    destruct (sort_key_isoformat job str dt Hdt Hs) as [H1 H2].
    repeat split; auto. rewrite Hs. apply nonempty_true, isoformat_nonempty.
Qed.

(** The listing of the example world: its date parses back. *)
Lemma adapter_published_parses_witness :
  exists job,
    snd (run (fetch Remotive ∅) net_adzuna_500) = Ok [job]
    /\ job_published job = "2024-03-01T00:00:00"%string
    /\ ((job_published job = ""%string /\ sort_key job = datetime_min)
        \/ exists str dt,
             fromisoformat str = Ok dt
             /\ job_published job = isoformat dt
             /\ job_published job <> ""%string
             /\ fromisoformat (replace "Z" "+00:00" (job_published job)) = Ok dt
             /\ sort_key job = dt).
Proof.
  destruct (snd (run (fetch Remotive ∅) net_adzuna_500)) as [[|job [|]]|] eqn:E;
    try (vm_compute in E; discriminate E).
  exists job. split; [reflexivity|]. split.
  - vm_compute in E. now injection E as <-.
  - exact (adapter_published_parses Remotive ∅ net_adzuna_500 [job] job E
             (or_introl eq_refl)).
Defined.

(** ** Sorting *)

Section sort_facts.

Lemma dt_lt_same (a b : datetime) :
  aware a = aware b -> dt_lt a b = Ok (instant a <? instant b).
Proof. intros H. unfold dt_lt. rewrite H. now destruct (aware b). Qed.

Lemma dt_lt_mixed (a b : datetime) :
  aware a <> aware b -> dt_lt a b = Raise TypeError.
Proof. intros H. unfold dt_lt. destruct (aware a), (aware b); simpl; congruence. Qed.

Lemma insert_desc_ok (kind : bool) (x : Job) (s : list Job) :
  aware (sort_key x) = kind ->
  Forall (fun j => aware (sort_key j) = kind) s ->
  StronglySorted newer_first s ->
  exists r,
    insert_desc x s = Ok r
    /\ Permutation r (x :: s)
    /\ StronglySorted newer_first r
    /\ forall i, filter (fun j => key_instant j = i) r
                 = filter (fun j => key_instant j = i) (x :: s).
Proof.
  intros Hx Hs Hsorted. induction s as [|y rest IH].
  - exists [x]. repeat split; auto. repeat constructor.
  - apply Forall_cons in Hs as [Hy Hrest].
    apply StronglySorted_inv in Hsorted as [Hsr Hall].
    cbn [insert_desc]. rewrite dt_lt_same by congruence.
    destruct (instant (sort_key x) <? instant (sort_key y)) eqn:E.
    + apply Z.ltb_lt in E.
      destruct (IH Hrest Hsr) as (r & -> & Hperm & Hsort & Hfilter).
      cbn [mbind result_bind]. exists (y :: r). split; [reflexivity|].
      split; [|split].
      * rewrite Hperm. apply perm_swap.
      * constructor; [exact Hsort|].
        rewrite Hperm. constructor; [unfold newer_first, key_instant; lia | exact Hall].
      * intros i. rewrite (filter_cons _ y r), Hfilter, !filter_cons.
        change (key_instant x) with (instant (sort_key x)).
        change (key_instant y) with (instant (sort_key y)).
        repeat case_decide; try reflexivity; lia.
    + apply Z.ltb_ge in E. exists (x :: y :: rest). repeat split; auto.
      constructor; [now constructor|].
      constructor; [exact E|].
      refine (Forall_impl _ _ _ Hall _).
      intros j Hj. unfold newer_first, key_instant in *. lia.
Qed.

Lemma sort_reverse_kind (kind : bool) (jobs : list Job) :
  Forall (fun j => aware (sort_key j) = kind) jobs ->
  exists sorted,
    sort_reverse jobs = Ok sorted
    /\ Permutation sorted jobs
    /\ StronglySorted newer_first sorted
    /\ forall i, filter (fun j => key_instant j = i) sorted
                 = filter (fun j => key_instant j = i) jobs.
Proof.
  induction jobs as [|x rest IH]; intros H.
  - exists []. repeat split; auto. constructor.
  - apply Forall_cons in H as [Hx Hrest].
    destruct (IH Hrest) as (s & Hs & Hperm & Hsort & Hfilter).
    cbn [sort_reverse]. rewrite Hs. cbn [mbind result_bind].
    destruct (insert_desc_ok kind x s Hx) as (r & Hr & Hp & Hso & Hf); auto.
    { rewrite Hperm. exact Hrest. }
    exists r. split; [exact Hr|]. split; [now rewrite Hp, Hperm|].
    split; [exact Hso|]. intros i. now rewrite Hf, !filter_cons, Hfilter.
Qed.

Lemma same_kind_forall (jobs : list Job) :
  same_kind jobs = true ->
  exists kind, Forall (fun j => aware (sort_key j) = kind) jobs.
Proof.
  unfold same_kind. intros [H|H]%orb_true_iff.
  - exists true. apply Forall_forall. intros j Hj.
    rewrite forallb_forall in H. now apply H, list_elem_of_In.
  - exists false. apply Forall_forall. intros j Hj.
    rewrite forallb_forall in H. apply negb_true_iff. now apply H, list_elem_of_In.
Qed.

(** With keys of both kinds the sort meets a comparison that raises. *)
Lemma sort_reverse_mixed (jobs : list Job) :
  same_kind jobs = false -> sort_reverse jobs = Raise TypeError.
Proof.
  induction jobs as [|x rest IH]; [discriminate|]. intros Hmixed.
  cbn [sort_reverse]. destruct (same_kind rest) eqn:Hrest.
  - destruct (same_kind_forall rest Hrest) as [kind Hkind].
    destruct (sort_reverse_kind kind rest Hkind) as (s & -> & Hperm & _).
    cbn [mbind result_bind]. destruct s as [|y s'].
    + apply Permutation_nil in Hperm. subst rest.
      unfold same_kind in Hmixed. cbn [forallb] in Hmixed.
      now destruct (aware (sort_key x)).
    + cbn [insert_desc].
      assert (Hy : aware (sort_key y) = kind).
      { rewrite Forall_forall in Hkind. apply Hkind.
        rewrite <- Hperm. now left. }
      rewrite dt_lt_mixed; [reflexivity|]. intros Hxy.
      assert (Hall : Forall (fun j => aware (sort_key j) = kind) (x :: rest))
        by (constructor; [congruence | exact Hkind]).
      rewrite Forall_forall in Hall.
      unfold same_kind in Hmixed. apply orb_false_iff in Hmixed as [H1 H2].
      destruct kind.
      * rewrite (proj2 (forallb_forall _ _)) in H1; [discriminate|].
        intros j Hj. now apply Hall, list_elem_of_In.
      * rewrite (proj2 (forallb_forall _ _)) in H2; [discriminate|].
        intros j Hj. apply negb_true_iff. now apply Hall, list_elem_of_In.
  - now rewrite IH.
Qed.

(** X3.  The sort returns exactly when the sort keys are all
    offset-aware or all offset-naive; it then returns a permutation of
    its input in newest-first order in which records with equal keys
    keep their input order.  With keys of both kinds it raises
    [TypeError]. *)
Lemma sort_reverse_spec (jobs : list Job) :
  if same_kind jobs
  then exists sorted,
         sort_reverse jobs = Ok sorted
         /\ Permutation sorted jobs
         /\ StronglySorted newer_first sorted
         /\ forall i, filter (fun j => key_instant j = i) sorted
                      = filter (fun j => key_instant j = i) jobs
  else sort_reverse jobs = Raise TypeError.
Proof.
  destruct (same_kind jobs) eqn:H; [|now apply sort_reverse_mixed].
  destruct (same_kind_forall jobs H) as [kind Hkind].
  exact (sort_reverse_kind kind jobs Hkind).
Qed.

End sort_facts.

(** With offset-naive dates the order of the specification's example
    comes out, wherever the undated record stands in the input. *)
Example sort_reverse_naive_dates :
  let a := dated "a" "2024-03-01T00:00:00" in
  let b := dated "b" "2024-02-01T00:00:00" in
  let e := dated "e" "" in
  sort_reverse [a; e; b] = Ok [a; b; e]
  /\ sort_reverse [e; a; b] = Ok [a; b; e]
  /\ sort_reverse [b; e; a] = Ok [a; b; e]
  /\ sort_reverse [e; b; a] = Ok [a; b; e]
  /\ sort_reverse [a; b; e] = Ok [a; b; e]
  /\ sort_reverse [b; a; e] = Ok [a; b; e].
Proof. vm_compute. repeat split; reflexivity. Qed.

(** C3, at the failing input.  A record whose date carries the UTC
    marker has an offset-aware sort key, an undated record has the
    offset-naive [datetime.min]: the sort compares the two and raises
    [TypeError], so nothing is sorted and [normalize_jobs] returns no
    list at all; the route handler then shows no jobs.  The same happens
    on the three dates of the specification's example when they carry an
    offset. *)
Theorem sort_mixed_dates_raises :
  sort_reverse [dated "a" "2024-03-01T00:00:00+00:00"; dated "e" ""]
  = Raise TypeError
  /\ sort_reverse [dated "a" "2024-03-01T00:00:00+00:00"; dated "e" "";
                   dated "b" "2024-02-01T00:00:00+00:00"]
     = Raise TypeError
  /\ snd (run (fetch_remotive_jobs) (net_remotive mixed_listings))
     = Ok [mkJob "98c3a9bafcee6ddf" "Backend Developer" "Acme" "Remote"
                 "https://acme.example/1" "Software Engineering" "Remotive"
                 "2024-03-01T00:00:00+00:00";
           mkJob "8d86f8a8a91a2da4" "Data Analyst" "Initech" "Remote"
                 "https://initech.example/2" "Data Science" "Remotive" ""]
  /\ snd (run (normalize_jobs ∅ 50) (net_remotive mixed_listings)) = Raise TypeError
  /\ snd (run (index ∅) (net_remotive mixed_listings)) = Ok [].
Proof. vm_compute. repeat split; reflexivity. Qed.

(** ** Truncation *)

Lemma slice_to_nonneg (limit : Z) (l : list Job) :
  0 <= limit -> slice_to limit l = firstn (Z.to_nat limit) l.
Proof. intros H. unfold slice_to. now rewrite (proj2 (Z.leb_le 0 limit) H). Qed.




(** ** Slugs *)

Section slug_facts.

(** One character through the three steps of the slug. *)
Lemma slug_step (c : ascii) (s : string) :
  exists c',
    slug_for_category (String c s) = String c' (slug_for_category s)
    /\ slug_char c' = true.
Proof.
  unfold slug_for_category. cbn [lower replace].
  destruct c as [[] [] [] [] [] [] [] []];
    (eexists; split; [reflexivity | reflexivity]).
Qed.

End slug_facts.

(** X1.  A slug contains no "/", no space and no capital letter A..Z;
    the slug of the category of any title is one of the four slugs the
    style sheet knows. *)
Theorem slug_for_category_shape (category title : string) :
  all_chars slug_char (slug_for_category category) = true
  /\ In (slug_for_category (categorize_job title)) slugs.
Proof.
  split.
  - induction category as [|c s IH]; [reflexivity|].
    destruct (slug_step c s) as (c' & -> & Hc). cbn [all_chars]. now rewrite Hc, IH.
  - unfold categorize_job. cbv zeta.
    repeat match goal with |- context [if ?b then _ else _] => destruct b end;
      vm_compute; auto.
Qed.

(** ** The route handler *)

(** X2.  The route handler, with the rendering of the template as a
    parameter.  The list it first hands to the template has at most 50
    records, each paired with the slug of its category, and is empty
    when [normalize_jobs] raised.  The handler returns the page of that
    list when its rendering returns, and otherwise whatever the
    rendering of the empty list returns or raises; it issues the
    requests of [normalize_jobs] and no other.  So the handler raises
    when [normalize_jobs] raises and the empty list cannot be
    rendered. *)
Theorem index_response_cases {Html : Type}
    (render_template : list (Job * string) -> result Html)
    (env : Env) (net : Net) :
  exists shown,
    snd (run (index env) net) = Ok shown
    /\ (length shown <= 50)%nat
    /\ Forall (fun js => snd js = slug_for_category (job_category (fst js))) shown
    /\ (forall e, snd (run (normalize_jobs env default_limit) net) = Raise e ->
        shown = [])
    /\ snd (run (index_response render_template env) net)
       = match render_template shown with
         | Ok page => Ok page
         | Raise _ => render_template []
         end
    /\ fst (run (index_response render_template env) net)
       = fst (run (normalize_jobs env default_limit) net)
    /\ (forall e e',
          snd (run (normalize_jobs env default_limit) net) = Raise e ->
          render_template [] = Raise e' ->
          snd (run (index_response render_template env) net) = Raise e').
Proof.
  rewrite index_result.
  assert (Hresp : run (index_response render_template env) net
            = (fst (run (normalize_jobs env default_limit) net),
               match snd (run (normalize_jobs env default_limit) net) with
               | Ok jobs =>
                   match render_template
                           (map (fun job => (job, slug_for_category (job_category job)))
                              jobs) with
                   | Ok page => Ok page
                   | Raise _ => render_template []
                   end
               | Raise _ => render_template []
               end)).
  { unfold index_response, run.
    cbv [io_try mbind io_mbind io_bind io_lift].
    destruct (normalize_jobs env default_limit net []) as [l [jobs|e]]; cbn [fst snd];
      [|reflexivity].
    destruct (render_template _); reflexivity. }
  rewrite Hresp. cbn [fst snd].
  destruct (snd (run (normalize_jobs env default_limit) net)) as [jobs|e] eqn:E.
  - eexists. split; [reflexivity|].
    split; [|split; [|split; [discriminate|split; [reflexivity|split;
      [reflexivity | discriminate]]]]].
    + rewrite length_map. revert E. unfold run.
      rewrite normalize_jobs_aggregate, aggregate_result.
      destruct (snd (gather providers env [] net [])) as [fetched|e]; [|discriminate].
      unfold rank. destruct (sort_reverse (dedup fetched)) as [sorted|e];
        cbn [mbind result_bind]; [|discriminate].
      intros [= <-]. rewrite slice_to_nonneg by (unfold default_limit; lia).
      rewrite length_take. unfold default_limit. lia.
    + apply Forall_forall. intros [j s] Hin.
      apply list_elem_of_In, in_map_iff in Hin as (j' & [= <- <-] & _). reflexivity.
  - exists []. split; [reflexivity|]. split; [cbn; lia|]. split; [constructor|].
    split; [reflexivity|]. split; [now destruct (render_template [])|].
    split; [reflexivity|]. now intros _ e' _ ->.
Qed.

(** A template that renders only the empty list, next to a working
    Remotive: the handler falls back to the empty page. *)
Lemma index_response_cases_witness :
  let render_template := fun shown : list (Job * string) =>
    match shown with
    | [] => Ok "no jobs"%string
    | _ :: _ => Raise KeyError
    end in
  snd (run (index_response render_template adzuna_env) net_adzuna_500)
  = Ok "no jobs"%string.
Proof.
  intros render_template.
  destruct (index_response_cases render_template adzuna_env net_adzuna_500)
    as (shown & Hshown & _ & _ & _ & -> & _).
  vm_compute in Hshown. injection Hshown as <-. reflexivity.
Defined.

(** ** Identifiers *)

(** X5.  The separator is not escaped: moving a colon-separated part
    from the end of the title to the front of the company leaves the id
    unchanged, so different (title, company) pairs can share an id. *)
Theorem generate_job_id_separator (a b c source : string) :
  generate_job_id (a ++ ":" ++ b) c source = generate_job_id a (b ++ ":" ++ c) source.
Proof.
  unfold generate_job_id, combined. do 5 f_equal.
  now rewrite !append_assoc.
Qed.

(** ** Deduplication, again *)

Lemma filter_keep_all {A} (P : A -> Prop) `{!forall x, Decision (P x)} (l : list A) :
  (forall x, x ∈ l -> P x) -> filter P l = l.
Proof.
  induction l as [|x l IH]; intros Hall; [reflexivity|].
  rewrite filter_cons_True by (apply Hall; left).
  f_equal. apply IH. intros y Hy. apply Hall. now right.
Qed.

Lemma keep_first_fixed (jobs : list Job) :
  NoDup (dedup_key <$> jobs) -> keep_first jobs = jobs.
Proof.
  induction jobs as [|job rest IH]; [reflexivity|].
  cbn [fmap list_fmap]. intros [Hnot Hrest]%NoDup_cons.
  cbn [keep_first]. rewrite (IH Hrest). f_equal.
  apply filter_keep_all. intros j Hj He. apply Hnot. rewrite <- He.
  now apply list_elem_of_fmap_2.
Qed.

(** X6.  Deduplication is idempotent, leaves a list without repeated
    keys as it is, and never returns more records than it was given. *)
Theorem dedup_idempotent (jobs : list Job) :
  dedup (dedup jobs) = dedup jobs
  /\ (NoDup (dedup_key <$> jobs) -> dedup jobs = jobs)
  /\ (length (dedup jobs) <= length jobs)%nat.
Proof.
  rewrite !dedup_keep_first. split; [|split].
  - apply keep_first_fixed, keep_first_keys_NoDup.
  - apply keep_first_fixed.
  - apply sublist_length, keep_first_sublist.
Qed.

Lemma dedup_idempotent_witness :
  let a := dated "Data Engineer" "" in
  let b := dated "Backend Developer" "" in
  dedup [a; b] = [a; b].
Proof.
  intros a b. apply (dedup_idempotent [a; b]).
  apply (bool_decide_unpack _). vm_compute. exact I.
Defined.

(** ** Date normalisation, again *)

(** X7.  Date normalisation is idempotent: what it returns for any
    value is returned unchanged when given back to it. *)
Theorem parse_iso_datetime_idempotent (value : json) (s : string) :
  parse_iso_datetime value = Ok s -> parse_iso_datetime (JStr s) = Ok s.
Proof.
  intros [-> | (str & dt & Hdt & ->)]%parse_iso_datetime_cases; [reflexivity|].
  unfold parse_iso_datetime. cbn [truthy]. rewrite isoformat_nonempty.
  cbn [negb replace_method mbind result_bind].
  rewrite replace_absent by apply isoformat_no_Z.
  now rewrite (fromisoformat_isoformat _ _ Hdt).
Qed.

Lemma parse_iso_datetime_idempotent_witness :
  parse_iso_datetime (JStr "2024-01-15T10:00:00+00:00") = Ok "2024-01-15T10:00:00+00:00".
Proof.
  apply (parse_iso_datetime_idempotent (JStr "2024-01-15T10:00:00Z")). reflexivity.
Defined.

(** ** The requests that are issued *)

Section request_facts.

Lemma fetch_requests (p : provider) (env : Env) (net : Net) :
  fst (run (fetch p env) net)
  = if skipped p env then [] else [request_of p env].
Proof.
  destruct (skipped p env) eqn:Hs; [unfold run; now rewrite skipped_fetch|].
  revert Hs. unfold skipped, run.
  destruct p; cbn [required_credentials existsb fetch request_of];
    unfold fetch_remotive_jobs, fetch_adzuna_jobs, fetch_jsearch_jobs,
      fetch_careerjet_jobs, fetch_themuse_jobs, fetch_usajobs;
    cbv zeta; rewrite ?orb_false_r; intros Hs; rewrite ?Hs;
    cbv [mbind io_mbind io_bind]; rewrite guarded_get_run;
    match goal with
    | |- context [net ?r] => destruct (net r) as [|status body]
    end;
    try reflexivity;
    destruct ((400 <=? status) && (status <? 600)); reflexivity.
Qed.

Lemma gather_requests (ps : list provider) (env : Env) (acc : list Job) (net : Net) :
  fst (gather ps env acc net []) `prefix_of` requests_due ps env
  /\ (forall jobs, snd (gather ps env acc net []) = Ok jobs ->
      fst (gather ps env acc net []) = requests_due ps env).
Proof.
  revert acc; induction ps as [|p ps IH]; intros acc.
  - split; [apply prefix_nil | reflexivity].
  - cbn [gather requests_due flat_map]. cbv [mbind io_mbind io_bind].
    rewrite (fetch_log p env net []). cbn [app].
    rewrite fetch_requests.
    destruct (snd (run (fetch p env) net)) as [r|e].
    + rewrite gather_log. cbn [fst snd]. destruct (IH (acc ++ r)) as [Hpre Heq].
      split; [now apply prefix_app|].
      intros jobs Hjobs. now rewrite (Heq jobs Hjobs).
    + cbn [fst snd]. split; [apply prefix_app_r; reflexivity | discriminate].
Qed.

End request_facts.

(** X4.  An adapter issues no request when it is skipped and exactly
    one otherwise, with a timeout of 10 seconds.  [normalize_jobs]
    issues the requests of the providers that are not skipped, in call
    order: all of them when it returns, an initial part of them when an
    adapter raised; never more than six. *)
Theorem requests_issued (env : Env) (net : Net) (limit : Z) :
  (forall p, fst (run (fetch p env) net)
             = if skipped p env then [] else [request_of p env])
  /\ (forall p, req_timeout (request_of p env) = 10)
  /\ fst (run (normalize_jobs env limit) net) `prefix_of` requests_due providers env
  /\ (forall out, snd (run (normalize_jobs env limit) net) = Ok out ->
      fst (run (normalize_jobs env limit) net) = requests_due providers env)
  /\ (length (fst (run (normalize_jobs env limit) net)) <= 6)%nat.
Proof.
  assert (Hlog : fst (run (normalize_jobs env limit) net)
                 = fst (gather providers env [] net [])).
  { unfold run. rewrite normalize_jobs_aggregate. unfold aggregate.
    cbv [mbind io_mbind io_bind io_lift].
    destruct (gather providers env [] net []) as [log [jobs|e]]; reflexivity. }
  assert (Hres : forall out, snd (run (normalize_jobs env limit) net) = Ok out ->
                 exists jobs, snd (gather providers env [] net []) = Ok jobs).
  { intros out. unfold run. rewrite normalize_jobs_aggregate, aggregate_result.
    destruct (snd (gather providers env [] net [])); [eauto | discriminate]. }
  destruct (gather_requests providers env [] net) as [Hpre Heq].
  split; [intros p; apply fetch_requests|]. split; [now intros []|].
  rewrite Hlog. split; [exact Hpre|]. split.
  - intros out [jobs Hjobs]%Hres. now apply (Heq jobs).
  - apply prefix_length in Hpre. etransitivity; [exact Hpre|].
    unfold requests_due, providers. cbn [flat_map].
    repeat match goal with |- context [if ?b then _ else _] => destruct b end;
      cbn; lia.
Qed.

Lemma requests_issued_witness :
  fst (run (normalize_jobs adzuna_env 50) net_adzuna_500)
  = [remotive_request; request_of Adzuna adzuna_env; request_of USAJobs adzuna_env].
Proof.
  destruct (requests_issued adzuna_env net_adzuna_500 50) as (_ & _ & _ & H & _).
  destruct (snd (run (normalize_jobs adzuna_env 50) net_adzuna_500)) as [out|e] eqn:E;
    [|vm_compute in E; discriminate E].
  rewrite (H out eq_refl). reflexivity.
Defined.

(** ** White space around the fields *)

Section strip_facts.

Lemma lstrip_head (s : string) :
  lstrip s = ""%string \/ exists c r, lstrip s = String c r /\ is_space c = false.
Proof.
  induction s as [|c s IH]; [now left|]. cbn [lstrip].
  destruct (is_space c) eqn:E; [exact IH | right; eauto].
Qed.

Lemma strip_idem (s : string) : strip (strip s) = strip s.
Proof.
  unfold strip. destruct (lstrip_head s) as [-> | (c & r & -> & Hc)]; [reflexivity|].
  rewrite (rstrip_cons_stop c r Hc). cbn [lstrip]. rewrite Hc.
  rewrite <- (rstrip_cons_stop c r Hc). apply rstrip_idem.
Qed.

Lemma stripped_strip (s : string) : stripped (strip s).
Proof. apply strip_idem. Qed.

Lemma stripped_rstrip (s : string) : stripped s -> rstrip s = s.
Proof. unfold stripped, strip. intros H. rewrite <- H at 1. now rewrite rstrip_idem. Qed.

Lemma stripped_lower (s : string) : stripped s -> strip (lower s) = lower s.
Proof. unfold stripped. intros H. now rewrite strip_lower, H. Qed.

Lemma strip_method_stripped (v : json) (a : string) :
  strip_method v = Ok a -> stripped a.
Proof. destruct v; try discriminate. intros [= <-]. apply stripped_strip. Qed.

Lemma first_or_stripped (xs : json) (default a : string) :
  first_or xs default = Ok a -> stripped a.
Proof.
  unfold first_or. intros H. bind_inv H. now apply strip_method_stripped in H.
Qed.

End strip_facts.

Ltac fields_start H :=
  intros H; bind_inv H;
  apply emit_inv in H as (_ & raw & published & _ & _ & ->);
  cbn [job_title job_url job_company job_location];
  repeat split; eauto using strip_method_stripped, first_or_stripped, stripped_strip.

Lemma item_body_stripped (p : provider) (item : json) (job : Job) :
  item_body p item = Ok (Some job) ->
  stripped (job_title job) /\ stripped (job_company job)
  /\ stripped (job_location job) /\ stripped (job_url job).
Proof.
  destruct p; cbn [item_body].
  - unfold remotive_item. destruct (isinstance_dict item); [|discriminate].
    cbn [negb]. fields_start H.
  - unfold adzuna_item. fields_start H.
  - unfold jsearch_item. fields_start H.
  - unfold careerjet_item. fields_start H.
  - unfold themuse_item. fields_start H.
  - unfold usajobs_item. fields_start H.
Qed.

(** X8.  The title, the company, the location and the url of every
    record an adapter returns carry no white space at either end; the
    deduplication key of such a record is therefore its lower-cased
    title and company. *)
Theorem adapter_fields_stripped (p : provider) (env : Env) (net : Net)
    (jobs : list Job) (job : Job) :
  snd (run (fetch p env) net) = Ok jobs -> In job jobs ->
  strip (job_title job) = job_title job
  /\ strip (job_company job) = job_company job
  /\ strip (job_location job) = job_location job
  /\ strip (job_url job) = job_url job
  /\ dedup_key job = (lower (job_title job), lower (job_company job)).
Proof.
  intros Hrun Hin. destruct (fetch_records p env net jobs Hrun job Hin) as [item Hb].
  destruct (item_body_stripped p item job Hb) as (Ht & Hc & Hl & Hu).
  repeat split; auto. unfold dedup_key. now rewrite !stripped_lower.
Qed.

Lemma adapter_fields_stripped_witness :
  exists job,
    snd (run (fetch Remotive ∅) (net_remotive
           [remotive_job "  Backend Developer " " Acme" "https://acme.example/1 " ""]))
    = Ok [job]
    /\ dedup_key job = ("backend developer", "acme")%string.
Proof.
  set (net := net_remotive _).
  destruct (snd (run (fetch Remotive ∅) net)) as [[|job [|]]|] eqn:E;
    try (vm_compute in E; discriminate E).
  exists job. split; [reflexivity|].
  destruct (adapter_fields_stripped Remotive ∅ net [job] job E (or_introl eq_refl))
    as (_ & _ & _ & _ & ->).
  vm_compute in E. now injection E as <-.
Defined.

(** X9.  The derived fields of every record an adapter returns: the id
    is [generate_job_id] of its title, its company and the adapter's
    name, 16 hexadecimal characters; the category is [categorize_job]
    of its title, one of the four labels. *)
Theorem adapter_derived_fields (p : provider) (env : Env) (net : Net)
    (jobs : list Job) (job : Job) :
  snd (run (fetch p env) net) = Ok jobs -> In job jobs ->
  job_id job = generate_job_id (job_title job) (job_company job) (provider_name p)
  /\ String.length (job_id job) = 16%nat
  /\ all_chars is_hex (job_id job) = true
  /\ job_category job = categorize_job (job_title job)
  /\ In (job_category job) categories.
Proof.
  intros Hrun Hin. destruct (fetch_records p env net jobs Hrun job Hin) as [item Hb].
  destruct (item_body_record p item job Hb)
    as (_ & _ & _ & Hs & _ & _ & Hid & Hcat & _).
  rewrite Hs in Hid. rewrite Hid, Hcat. split; [reflexivity|].
  split; [|split; [|split; [reflexivity|]]].
  - unfold generate_job_id. now rewrite str_take_length, hexdigest_length.
  - unfold generate_job_id, Md5.hexdigest.
    apply all_chars_str_take, hex_is_hex, digest_bytes.
  - unfold categorize_job, categories. cbv zeta.
    repeat match goal with |- context [if ?b then _ else _] => destruct b end;
      simpl; auto.
Qed.

Lemma adapter_derived_fields_witness :
  exists job,
    snd (run (fetch Remotive ∅) net_adzuna_500) = Ok [job]
    /\ job_id job = generate_job_id (job_title job) (job_company job) "Remotive"
    /\ In (job_category job) categories.
Proof.
  destruct (snd (run (fetch Remotive ∅) net_adzuna_500)) as [[|job [|]]|] eqn:E;
    try (vm_compute in E; discriminate E).
  exists job.
  destruct (adapter_derived_fields Remotive ∅ net_adzuna_500 [job] job E
              (or_introl eq_refl)) as (Hid & _ & _ & _ & Hcat).
  auto.
Defined.

(** ** What [normalize_jobs] returns *)

Section output_facts.





End output_facts.



(** ** Payloads of unexpected shape *)

(** X12.  Only the Remotive loop checks that an item is an object: it
    skips any other item, while the loop body of every other adapter
    raises [AttributeError] on it. *)
Theorem non_object_item (item : json) :
  isinstance_dict item = false ->
  remotive_item item = Ok None
  /\ forall p, p <> Remotive -> item_body p item = Raise AttributeError.
Proof.
  intros H. split.
  - unfold remotive_item. now rewrite H.
  - intros p Hp. destruct item; try discriminate H; destruct p; try reflexivity;
      contradiction.
Qed.

Lemma non_object_item_witness :
  remotive_item (JStr "listing") = Ok None
  /\ adzuna_item (JStr "listing") = Raise AttributeError.
Proof.
  destruct (non_object_item (JStr "listing") eq_refl) as [H1 H2].
  split; [exact H1 | apply (H2 Adzuna); discriminate].
Defined.

(** X15.  The item loop of an adapter returns exactly when its body
    returns on every item, and then it returns what it started with
    followed by the records of the items that gave one, in item order;
    when the body raises on an item after returning on all earlier
    ones, the loop raises that exception and nothing of what was
    collected is returned; and the loop raises whenever the body raises
    on any of the items. *)
Theorem loop_abort_and_bound (body : json -> result (option Job))
    (items : list json) (acc : list Job) :
  (forall jobs,
      for_items body items acc = Ok jobs <->
      exists outs,
        Forall2 (fun item out => body item = Ok out) items outs
        /\ jobs = acc ++ omap id outs)
  /\ (forall before item after e,
        items = before ++ item :: after ->
        Forall (fun i => exists out, body i = Ok out) before ->
        body item = Raise e ->
        for_items body items acc = Raise e)
  /\ (forall item e,
        In item items -> body item = Raise e ->
        exists e', for_items body items acc = Raise e').
Proof.
  split; [intros jobs; apply for_items_spec|]. split.
  - intros before item after e -> Hb He. now apply for_items_raise.
  - intros item e Hin He.
    destruct (for_items body items acc) as [jobs|e'] eqn:E; [|eauto].
    apply for_items_spec in E as (outs & Hf & _).
    apply list_elem_of_In, list_elem_of_lookup_1 in Hin as [i Hi].
    destruct (Forall2_lookup_l _ _ _ _ _ Hf Hi) as (out & _ & Ho). congruence.
Qed.

(** A listing followed by a number: the number stops the Adzuna loop and
    the record of the listing is lost. *)
Lemma loop_abort_and_bound_witness :
  for_items adzuna_item
    [adzuna_item_of "Data Analyst" "Initech" "https://initech.example/2"; JNum 7] []
  = Raise AttributeError.
Proof.
  apply (proj1 (proj2 (loop_abort_and_bound adzuna_item _ []))
           [adzuna_item_of "Data Analyst" "Initech" "https://initech.example/2"]
           (JNum 7) [] AttributeError).
  - reflexivity.
  - constructor; [|constructor]. eexists. reflexivity.
  - reflexivity.
Defined.

Section payload_facts.

Lemma has_key_lookup (k : string) (d : list (string * json)) :
  has_key k (JDict d) = false -> dict_lookup k d = None.
Proof. cbn [has_key]. now destruct (dict_lookup k d). Qed.

Lemma status_ok_guard (status : Z) :
  status_ok status = true -> (400 <=? status) && (status <? 600) = false.
Proof. unfold status_ok. now intros ->%negb_true_iff. Qed.

End payload_facts.

(** The adapter up to the decoded payload. *)
Ltac to_payload Hst :=
  unfold skipped, run;
  match goal with
  | |- context [fetch ?p _] =>
      destruct p; cbn [required_credentials existsb fetch request_of listing_key]
  end;
  unfold fetch_remotive_jobs, fetch_adzuna_jobs, fetch_jsearch_jobs,
    fetch_careerjet_jobs, fetch_themuse_jobs, fetch_usajobs;
  cbv zeta; rewrite ?orb_false_r;
  let Hs := fresh "Hs" in
  let Hnet := fresh "Hnet" in
  intros Hs Hnet; rewrite ?Hs;
  cbv [mbind io_mbind io_bind]; rewrite guarded_get_run, Hnet, Hst;
  cbv [io_lift response_json result_bind]; cbn [fst snd].

(** X13.  A payload that is not an object is not handled: every
    adapter calls [.get] on it first and raises [AttributeError].  This
    includes the top-level array from which the Remotive adapter means
    to read its listings. *)
Theorem non_object_payload_raises (p : provider) (env : Env) (net : Net)
    (status : Z) (payload : json) :
  skipped p env = false ->
  net (request_of p env) = Response status (Some payload) ->
  status_ok status = true ->
  isinstance_dict payload = false ->
  snd (run (fetch p env) net) = Raise AttributeError.
Proof.
  intros Hs Hnet Hst%status_ok_guard Hd. revert Hs Hnet.
  to_payload Hst; destruct payload; try discriminate Hd; reflexivity.
Qed.

Lemma non_object_payload_raises_witness :
  snd (run fetch_remotive_jobs
         (net_of [(remotive_url,
                   Response 200 (Some (JList [remotive_job "Backend Developer" "Acme"
                                                "https://acme.example/1" ""])))]))
  = Raise AttributeError.
Proof.
  eapply (non_object_payload_raises Remotive ∅ _ 200); reflexivity.
Defined.

(** X14.  A payload object without the adapter's listing key gives the
    empty list. *)
Theorem missing_listing_empty (p : provider) (env : Env) (net : Net)
    (status : Z) (d : list (string * json)) :
  skipped p env = false ->
  net (request_of p env) = Response status (Some (JDict d)) ->
  status_ok status = true ->
  has_key (listing_key p) (JDict d) = false ->
  snd (run (fetch p env) net) = Ok [].
Proof.
  intros Hs Hnet Hst%status_ok_guard Hk. revert Hk Hs Hnet.
  unfold skipped, run.
  destruct p; cbn [listing_key]; intros Hk%has_key_lookup; revert Hk;
    cbn [required_credentials existsb fetch request_of];
    unfold fetch_remotive_jobs, fetch_adzuna_jobs, fetch_jsearch_jobs,
      fetch_careerjet_jobs, fetch_themuse_jobs, fetch_usajobs;
    cbv zeta; rewrite ?orb_false_r; intros Hk Hs Hnet; rewrite ?Hs;
    cbv [mbind io_mbind io_bind]; rewrite guarded_get_run, Hnet, Hst;
    cbv [io_lift response_json result_bind]; cbn [fst snd get_d];
    rewrite Hk; reflexivity.
Qed.

Lemma missing_listing_empty_witness :
  snd (run (fetch USAJobs ∅)
         (net_of [("https://data.usajobs.gov/api/Search",
                   Response 200 (Some (JDict [("error", JStr "rate limited")])))]))
  = Ok [].
Proof.
  eapply (missing_listing_empty USAJobs ∅ _ 200); reflexivity.
Defined.

(** ** Undated records *)

Section undated_facts.

Lemma days_before_month_aux_nonneg (y : Z) (m : nat) :
  0 <= days_before_month_aux y m.
Proof.
  induction m as [|m IH]; [reflexivity|]. cbn [days_before_month_aux].
  pose proof (days_in_month_le y (Z.of_nat (S m))). lia.
Qed.

Lemma days_before_year_nonneg (y : Z) : 1 <= y -> 0 <= days_before_year y.
Proof.
  intros H. unfold days_before_year. cbv zeta.
  assert (0 <= (y - 1) / 400) by (apply Z.div_pos; lia).
  assert ((y - 1) / 100 <= (y - 1) / 4).
  { apply Z.div_le_lower_bound; [lia|].
    pose proof (Z.mul_div_le (y - 1) 100 ltac:(lia)).
    pose proof (Z.div_pos (y - 1) 100 ltac:(lia) ltac:(lia)). lia. }
  lia.
Qed.

(** No datetime value lies before [datetime.min] on the wall clock. *)
Lemma wall_us_min (dt : datetime) :
  valid dt = true -> wall_us datetime_min <= wall_us dt.
Proof.
  unfold valid. intros [Hf _]%andb_true_iff.
  apply valid_fields_bounds in Hf.
  change (wall_us datetime_min) with 86400000000.
  unfold wall_us, toordinal, days_before_month.
  pose proof (days_before_year_nonneg (year dt) ltac:(lia)).
  pose proof (days_before_month_aux_nonneg (year dt) (Z.to_nat (month dt - 1))).
  lia.
Qed.

Lemma sort_key_valid (job : Job) : valid (sort_key job) = true.
Proof.
  unfold sort_key. cbv zeta. destruct (negb _); [reflexivity|].
  unfold fromisoformat.
  destruct (parse _) as [dt|] eqn:E; [exact (parse_valid _ _ E) | reflexivity].
Qed.

Lemma sort_key_undated (job : Job) :
  job_published job = ""%string -> sort_key job = datetime_min.
Proof. intros H. unfold sort_key. now rewrite H. Qed.

Lemma StronglySorted_app_tail {A} (R : A -> A -> Prop) (l1 l2 : list A) :
  StronglySorted R (l1 ++ l2) -> StronglySorted R l2.
Proof.
  induction l1 as [|x l1 IH]; [trivial|]. cbn [app].
  intros [H _]%StronglySorted_inv. now apply IH.
Qed.

End undated_facts.

(** X16.  When the sort returns, nothing that comes after an undated
    record is newer than it: every later record has the same position
    on the time line, that is, it is undated as well or carries the
    earliest date there is. *)
Theorem undated_sink (jobs sorted : list Job) (before after : list Job) (a : Job) :
  sort_reverse jobs = Ok sorted ->
  sorted = before ++ a :: after ->
  job_published a = ""%string ->
  Forall (fun b => aware (sort_key b) = false
                   /\ key_instant b = key_instant a) after.
Proof.
  intros Hsort -> Ha.
  assert (Hkind : same_kind jobs = true).
  { destruct (same_kind jobs) eqn:E; [reflexivity|].
    rewrite (sort_reverse_mixed jobs E) in Hsort. discriminate. }
  destruct (same_kind_forall jobs Hkind) as [kind Hall].
  destruct (sort_reverse_kind kind jobs Hall) as (s & Hs & Hperm & Hsorted & _).
  rewrite Hsort in Hs. injection Hs as <-.
  rewrite <- Hperm in Hall. rewrite Forall_forall in Hall.
  assert (Hnaive : kind = false).
  { rewrite <- (Hall a) by (apply elem_of_app; right; left).
    now rewrite (sort_key_undated a Ha). }
  apply StronglySorted_app_tail, StronglySorted_inv in Hsorted as [_ Hafter].
  apply Forall_forall. intros b Hb.
  assert (Hbk : aware (sort_key b) = false).
  { rewrite (Hall b), Hnaive; [reflexivity|].
    apply elem_of_app. right. now right. }
  split; [exact Hbk|].
  rewrite Forall_forall in Hafter. specialize (Hafter b Hb).
  unfold newer_first, key_instant, instant in *.
  rewrite (sort_key_undated a Ha) in *. unfold aware in Hbk.
  pose proof (wall_us_min (sort_key b) (sort_key_valid b)) as Hmin.
  destruct (tzoffset (sort_key b)); [discriminate|].
  cbn [tzoffset datetime_min] in *. lia.
Qed.

Lemma undated_sink_witness :
  let a := dated "a" "2024-03-01T00:00:00" in
  let e := dated "e" "" in
  let f := dated "f" "" in
  sort_reverse [e; a; f] = Ok [a; e; f]
  /\ key_instant f = key_instant e.
Proof.
  intros a e f.
  assert (H : sort_reverse [e; a; f] = Ok [a; e; f]) by reflexivity.
  split; [exact H|].
  pose proof (undated_sink [e; a; f] [a; e; f] [a] [f] e H eq_refl eq_refl) as Hf.
  apply Forall_cons in Hf as [[_ Hf] _]. exact Hf.
Defined.
